(** * Letterbox template updater: tag-delimited replacement and tier snippets

    A shallow embedding of the pure core of [github_helpers.py] and
    [streamlit_app.py]:

    - [GithubHelpers.list_text_files_in_folder] and
      [GithubHelpers.safe_replace_between_tags], together with the fragment
      of Python's [re] module they run on ([Re]);
    - [StreamlitApp.build_handlebars], the nested if/else snippet builder;
    - the token resolution and the head of the script ([Startup]), the
      choice of the [_live] files and the ordering of the tiers
      ([Selection]);
    - [read_file_contents], [write_or_update_file] and the two update
      flows of the script, run on an abstract remote store that logs every
      call ([Remote]).

    Python [str] values are modelled as [string]: a character is a code
    point below 256 (Latin-1), on which [str.lower] and the [IGNORECASE]
    matching of [re] are the map [Py.lower_char].  Python [float] values are
    the kernel's binary64 numbers. *)

From Stdlib Require Import Bool Arith ZArith Lia List Ascii String.
From Stdlib Require Import DecimalString Floats.
From Stdlib Require Import Permutation Sorted.
Import ListNotations.

Local Open Scope string_scope.

(* ================================================================== *)
(** ** Python strings *)

Module Py.

(** The line feed that a Python source literal writes as backslash-n. *)
Definition LF : string := String "010"%char "".

Definition is_empty (s : string) : bool :=
  match s with
  | EmptyString => true
  | String _ _ => false
  end.

(** [str.lower] on one code point below 256: the letters A-Z, and the
    Latin-1 capitals U+00C0..U+00DE without the multiplication sign U+00D7,
    move up by 32; everything else is fixed. *)
Definition lower_char (c : ascii) : ascii :=
  let n := nat_of_ascii c in
  if (((65 <=? n) && (n <=? 90))
      || ((192 <=? n) && (n <=? 222) && negb (n =? 215)))%nat
  then ascii_of_nat (n + 32)
  else c.

(** [s.lower()] *)
Fixpoint lower (s : string) : string :=
  match s with
  | EmptyString => EmptyString
  | String c s' => String (lower_char c) (lower s')
  end.

(** [s.endswith(suffix)]: some tail of [s] is [suffix]. *)
Fixpoint endswith (s suffix : string) : bool :=
  if String.eqb s suffix then true
  else match s with
       | EmptyString => false
       | String _ s' => endswith s' suffix
       end.

(** [s[k:]] *)
Fixpoint drop (k : nat) (s : string) : string :=
  match k, s with
  | O, _ => s
  | S _, EmptyString => EmptyString
  | S k', String _ s' => drop k' s'
  end.

(** [c in s] for a single character. *)
Fixpoint mem_char (c : ascii) (s : string) : bool :=
  match s with
  | EmptyString => false
  | String d s' => Ascii.eqb c d || mem_char c s'
  end.

End Py.

(* ================================================================== *)
(** ** The fragment of [re] behind [safe_replace_between_tags]

    The compiled pattern is always
    [re.escape(start_tag) + "(.*?)" + re.escape(end_tag)] under
    [DOTALL | IGNORECASE]: a literal run, a lazy capture of arbitrary
    characters (group 1), a literal run.  The literal runs are kept as the
    tag strings themselves, since [re.escape] only makes every character
    stand for itself. *)

Module Re.

(** One literal character of the pattern against one character of the
    text under [IGNORECASE]. *)
Definition eq_ignorecase (p c : ascii) : bool :=
  Ascii.eqb (Py.lower_char p) (Py.lower_char c).

(** The escaped literal [lit] at the head of [s]: the text it matched (in
    the spelling of [s]) and what follows. *)
Fixpoint match_literal (lit s : string) : option (string * string) :=
  match lit with
  | EmptyString => Some (EmptyString, s)
  | String p lit' =>
      match s with
      | EmptyString => None
      | String c s' =>
          if eq_ignorecase p c then
            match match_literal lit' s' with
            | Some (m, rest) => Some (String c m, rest)
            | None => None
            end
          else None
      end
  end.

(** [(.*?)] followed by the escaped [end_lit]: the shortest capture after
    which [end_lit] matches; the result is the capture, the text matched by
    [end_lit] and the rest.  With [reject_empty] the engine refuses the
    zero-length candidate (its [must_advance] check) and backtracks into the
    lazy repeat. *)
Fixpoint match_lazy (reject_empty : bool) (end_lit s : string)
  : option (string * string * string) :=
  match (if reject_empty then None else match_literal end_lit s) with
  | Some (m, rest) => Some (EmptyString, m, rest)
  | None =>
      match s with
      | EmptyString => None
      | String c s' =>
          match match_lazy false end_lit s' with
          | Some (g1, m, rest) => Some (String c g1, m, rest)
          | None => None
          end
      end
  end.

(** What one match records: the text matched by the start tag, the capture
    (group 1), the text matched by the end tag. *)
Record match_obj : Type := MatchObj
  { m_start : string;
    m_group1 : string;
    m_end : string }.

(** Group 0: the whole matched text. *)
Definition group0 (m : match_obj) : string :=
  m_start m ++ m_group1 m ++ m_end m.

(** The pattern anchored at the head of [s]. A zero-length match is only
    possible when both literals are empty, and it is refused when the
    previous match of a [sub] was empty. *)
Definition match_at (must_advance : bool) (start_lit end_lit s : string)
  : option (match_obj * string) :=
  match match_literal start_lit s with
  | None => None
  | Some (ms, s1) =>
      match match_lazy (must_advance && Py.is_empty start_lit && Py.is_empty end_lit)
                       end_lit s1 with
      | Some (g1, me, rest) => Some (MatchObj ms g1 me, rest)
      | None => None
      end
  end.

(** [pattern.search]: the leftmost position at which the pattern matches;
    the result is the text skipped, the match and the text after it.  Only
    the first position tried is subject to [must_advance]. *)
Fixpoint search (must_advance : bool) (start_lit end_lit s : string)
  : option (string * match_obj * string) :=
  match match_at must_advance start_lit end_lit s with
  | Some (m, rest) => Some (EmptyString, m, rest)
  | None =>
      match s with
      | EmptyString => None
      | String c s' =>
          match search false start_lit end_lit s' with
          | Some (skipped, m, rest) => Some (String c skipped, m, rest)
          | None => None
          end
      end
  end.

(** *** Replacement templates

    [pattern.sub(repl, text)] with a string [repl] first parses [repl] as
    a template: a backslash introduces a group reference or an escape (the
    rules are those of CPython 3.12's [re._parser.parse_template]). *)

(** The exceptions the modelled code can raise. *)
Inductive exn : Type :=
| ValueError (msg : string)
| TypeError (msg : string)
| re_error
| IndexError
| GithubException (status : nat)
| OtherError (class_name : string).      (* any other subclass of [Exception] *)

(** The two ways a replacement template is refused: [re.error], and the
    [IndexError] for a group name the pattern does not define. *)
Inductive template_exn : Type :=
| bad_template
| unknown_group_name.

Definition exn_of_template (e : template_exn) : exn :=
  match e with
  | bad_template => re_error
  | unknown_group_name => IndexError
  end.

Inductive titem : Type :=
| TLit (c : ascii)
| TGroup (index : nat).

Definition backslash : ascii := "092"%char.

Definition is_digit (c : ascii) : bool :=
  let n := nat_of_ascii c in ((48 <=? n) && (n <=? 57))%nat.

Definition is_octdigit (c : ascii) : bool :=
  let n := nat_of_ascii c in ((48 <=? n) && (n <=? 55))%nat.

Definition is_ascii_letter (c : ascii) : bool :=
  let n := nat_of_ascii c in
  (((65 <=? n) && (n <=? 90)) || ((97 <=? n) && (n <=? 122)))%nat.

Definition digit_val (c : ascii) : nat := nat_of_ascii c - 48.

(** [str.isidentifier] on code points below 256. *)
Definition is_id_start (c : ascii) : bool :=
  let n := nat_of_ascii c in
  (is_ascii_letter c || (n =? 95) || (n =? 170) || (n =? 181) || (n =? 186)
   || ((192 <=? n) && negb (n =? 215) && negb (n =? 247)))%nat.

Definition is_id_continue (c : ascii) : bool :=
  (is_id_start c || is_digit c || (nat_of_ascii c =? 183))%nat.

Fixpoint all_chars (p : ascii -> bool) (s : string) : bool :=
  match s with
  | EmptyString => true
  | String c s' => p c && all_chars p s'
  end.

Definition isidentifier (s : string) : bool :=
  match s with
  | EmptyString => false
  | String c s' => is_id_start c && all_chars is_id_continue s'
  end.

(** [int(name)] for a name made of ASCII digits. *)
Fixpoint int_of_digits (acc : nat) (s : string) : nat :=
  match s with
  | EmptyString => acc
  | String c s' => int_of_digits (10 * acc + digit_val c) s'
  end.

(** The single-character escapes of a template ([ESCAPES]). *)
Definition escape_code (c : ascii) : option ascii :=
  match nat_of_ascii c with
  | 97 => Some "007"%char   (* a *)
  | 98 => Some "008"%char   (* b *)
  | 102 => Some "012"%char  (* f *)
  | 110 => Some "010"%char  (* n *)
  | 114 => Some "013"%char  (* r *)
  | 116 => Some "009"%char  (* t *)
  | 118 => Some "011"%char  (* v *)
  | 92 => Some backslash
  | _ => None
  end.

(** The pattern has exactly one capturing group. *)
Definition groups : nat := 1.

(** [addgroup(index)] *)
Definition addgroup (index : nat) (k : template_exn + list titem) : template_exn + list titem :=
  if (groups <? index)%nat then inl bad_template
  else match k with
       | inl e => inl e
       | inr items => inr (TGroup index :: items)
       end.

Definition lappend (c : ascii) (k : template_exn + list titem) : template_exn + list titem :=
  match k with
  | inl e => inl e
  | inr items => inr (TLit c :: items)
  end.

(** What follows [\g<]: the name up to the closing [>], then the group it
    names.  A name of ASCII digits is a group number; an identifier is a
    group name, and the pattern has no named group; anything else is
    rejected. *)
Definition group_of_name (name : string) (k : template_exn + list titem)
  : template_exn + list titem :=
  if Py.is_empty name then inl bad_template
  else if all_chars is_digit name then addgroup (int_of_digits 0 name) k
  else if isidentifier name then inl unknown_group_name
  else inl bad_template.

Fixpoint parse_template (s : string) : template_exn + list titem :=
  match s with
  | EmptyString => inr []
  | String c s1 =>
      if negb (Ascii.eqb c backslash) then lappend c (parse_template s1)
      else
        match s1 with
        | EmptyString => inl bad_template              (* bad escape (end of pattern) *)
        | String e s2 =>
            if Ascii.eqb e "g"%char then
              match s2 with
              | String lt s3 =>
                  if Ascii.eqb lt "<"%char then parse_group_name EmptyString s3
                  else inl bad_template                  (* missing < *)
              | EmptyString => inl bad_template
              end
            else if Ascii.eqb e "0"%char then
              match s2 with
              | String d1 s3 =>
                  if is_octdigit d1 then
                    match s3 with
                    | String d2 s4 =>
                        if is_octdigit d2
                        then lappend (ascii_of_nat ((8 * digit_val d1 + digit_val d2) mod 256))
                                     (parse_template s4)
                        else lappend (ascii_of_nat (digit_val d1)) (parse_template s3)
                    | EmptyString => lappend (ascii_of_nat (digit_val d1)) (parse_template s3)
                    end
                  else lappend Ascii.zero (parse_template s2)
              | EmptyString => lappend Ascii.zero (parse_template s2)
              end
            else if is_digit e then
              match s2 with
              | String d1 s3 =>
                  if is_digit d1 then
                    match s3 with
                    | String d2 s4 =>
                        if is_octdigit e && is_octdigit d1 && is_octdigit d2 then
                          let v := 64 * digit_val e + 8 * digit_val d1 + digit_val d2 in
                          if (255 <? v)%nat then inl bad_template   (* octal escape out of range *)
                          else lappend (ascii_of_nat v) (parse_template s4)
                        else addgroup (10 * digit_val e + digit_val d1) (parse_template s3)
                    | EmptyString =>
                        addgroup (10 * digit_val e + digit_val d1) (parse_template s3)
                    end
                  else addgroup (digit_val e) (parse_template s2)
              | EmptyString => addgroup (digit_val e) (parse_template s2)
              end
            else
              match escape_code e with
              | Some x => lappend x (parse_template s2)
              | None =>
                  if is_ascii_letter e then inl bad_template         (* bad escape *)
                  else lappend c (lappend e (parse_template s2))
              end
        end
  end
with parse_group_name (name : string) (s : string) : template_exn + list titem :=
  match s with
  | EmptyString => inl bad_template                      (* missing >, unterminated name *)
  | String c s' =>
      if Ascii.eqb c ">"%char then group_of_name name (parse_template s')
      else if Ascii.eqb c backslash then inl bad_template
      else parse_group_name (name ++ String c EmptyString) s'
  end.

(** The text a template stands for at one match. *)
Fixpoint expand (items : list titem) (m : match_obj) : string :=
  match items with
  | [] => EmptyString
  | TLit c :: items' => String c (expand items' m)
  | TGroup 0 :: items' => group0 m ++ expand items' m
  | TGroup _ :: items' => m_group1 m ++ expand items' m
  end.

(** [pattern.sub(repl, text)] once [repl] is parsed: the matches are taken
    left to right without overlap, each replaced by the expanded template;
    an empty match makes the next search advance ([pattern_subx]).  Every
    round either consumes a character or follows an empty match with a
    non-empty one, so [2 * length text + 2] rounds are enough; [None] means
    the rounds ran out. *)
Fixpoint sub_loop (rounds : nat) (must_advance : bool) (start_lit end_lit : string)
         (items : list titem) (text : string) : option string :=
  match rounds with
  | O => None
  | S rounds' =>
      match search must_advance start_lit end_lit text with
      | None => Some text
      | Some (skipped, m, rest) =>
          match sub_loop rounds' (Py.is_empty (group0 m)) start_lit end_lit items rest with
          | Some out => Some (skipped ++ expand items m ++ out)
          | None => None
          end
      end
  end.

Definition sub_rounds (text : string) : nat := 2 * String.length text + 2.

(** What a round still has to get through: twice the text left, and one
    more while an empty match may still come first. *)
Definition rounds_needed (must_advance : bool) (text : string) : nat :=
  2 * String.length text + (if must_advance then 0 else 1).

End Re.

(* ================================================================== *)
(** ** github_helpers.py *)

Module GithubHelpers.
Import Re.

(** How a call ends: with a value, with an exception, or (for the
    replacement loop only) with its rounds used up. *)
Inductive outcome (A : Type) : Type :=
| Returns (a : A)
| Raises (e : exn)
| Unfinished.
Arguments Returns {A} a.
Arguments Raises {A} e.
Arguments Unfinished {A}.

(** The entries PyGithub hands back: what the helpers read of a
    [ContentFile]. *)
Record ContentFile : Type := mkContentFile
  { cf_type : string;
    cf_name : string;
    cf_path : string }.

(** What [repo.get_contents(path)] gives back when it does not raise: the
    list of the entries of a folder, or, for a path that is a file, the one
    [ContentFile] of it. *)
Inductive contents_reply : Type :=
| Entries (contents : list ContentFile)
| OneFile (contents : ContentFile).

(** The remote store as the helpers see it. *)
Record Repository : Type := mkRepository
  { get_contents : string -> exn + contents_reply }.

(** What iterating over a lone [ContentFile] raises. *)
Definition not_iterable : exn := TypeError "'ContentFile' object is not iterable".

(** [c.type == "file" and c.name.lower().endswith(".txt")] *)
Definition is_text_file (c : ContentFile) : bool :=
  String.eqb (cf_type c) "file" && Py.endswith (Py.lower (cf_name c)) ".txt".

Definition list_text_files_in_folder (repo : Repository) (folder_path : string)
  : outcome (list ContentFile) :=
  match get_contents repo folder_path with
  | inl _ => Returns []                       (* folder missing -> empty list *)
  | inr (Entries contents) => Returns (filter is_text_file contents)
  | inr (OneFile _) => Raises not_iterable    (* the comprehension, outside the try *)
  end.

(** The message of the [ValueError]:
    [f"Tags not found: {start_tag} ... {end_tag}"]. *)
Definition tags_not_found (start_tag end_tag : string) : string :=
  "Tags not found: " ++ start_tag ++ " ... " ++ end_tag.

Definition safe_replace_between_tags
           (original_text start_tag end_tag new_inner_text : string) : outcome string :=
  match search false start_tag end_tag original_text with
  | None => Raises (ValueError (tags_not_found start_tag end_tag))
  | Some _ =>
      let replacement := start_tag ++ Py.LF ++ new_inner_text ++ Py.LF ++ end_tag in
      match parse_template replacement with
      | inl e => Raises (exn_of_template e)
      | inr items =>
          match sub_loop (sub_rounds original_text) false start_tag end_tag
                         items original_text with
          | Some new_text => Returns new_text
          | None => Unfinished
          end
      end
  end.

End GithubHelpers.

(* ================================================================== *)
(** ** Python floats and their fixed-point formatting *)

Module PyFloat.

(** [num / den] rounded to the nearest integer, ties to even
    ([den] positive, [num] not negative). *)
Definition round_half_even (num den : Z) : Z :=
  let q := (num / den)%Z in
  let r := (num mod den)%Z in
  match (2 * r ?= den)%Z with
  | Lt => q
  | Gt => (q + 1)%Z
  | Eq => if Z.even q then q else (q + 1)%Z
  end.

(** The number of hundredths nearest to the magnitude [m * 2^e]. *)
Definition hundredths (m : positive) (e : Z) : Z :=
  if (0 <=? e)%Z then (Zpos m * 2 ^ e * 100)%Z
  else round_half_even (Zpos m * 100) (2 ^ (- e)).

Definition decimal (n : Z) : string :=
  NilZero.string_of_uint (N.to_uint (Z.to_N n)).

Definition two_digits (n : Z) : string :=
  if (n <? 10)%Z then "0" ++ decimal n else decimal n.

(** Sign, integer part, point, two fraction digits. *)
Definition fixed2 (negative : bool) (h : Z) : string :=
  (if negative then "-" else "") ++ decimal (h / 100) ++ "." ++ two_digits (h mod 100).

(** [f"{x:0.2f}"]: the binary value of [x] correctly rounded to two
    decimals; infinities and NaN are spelled out. *)
Definition format_2f (x : float) : string :=
  match Prim2SF x with
  | S754_zero s => fixed2 s 0
  | S754_infinity s => if s then "-inf" else "inf"
  | S754_nan => "nan"
  | S754_finite s m e => fixed2 s (hundredths m e)
  end.

(** The double that Python reads the literal [0.01] as. *)
Definition cent : float := 0x1.47ae147ae147bp-7%float.

(** *** Reading the rounding of [SpecFloat]

    The kernel's floats are specified by [SpecFloat]: a result is rounded
    by shifting the exact mantissa right and keeping track of what falls
    off.  These two definitions say what that record holds after [k]
    shifts of a mantissa [M]. *)



End PyFloat.

(* ================================================================== *)
(** ** streamlit_app.py: the snippet builder *)

Module StreamlitApp.

(** A tier as the signature flow builds it: a dict with the keys [name],
    [title], [min_gift] and [max_gift]. The builder reads [title] with
    [.get("title", "")] and never reads [max_gift]. *)
Record Tier : Type := mkTier
  { name : string;
    title : option string;
    min_gift : float;
    max_gift : option float }.

Definition get_title (tier : Tier) : string :=
  match title tier with
  | Some t => t
  | None => EmptyString
  end.

Definition dquote : string := String "034"%char "".

(** [f'{{{{#if (compare Gift.amount.value ">" {compare_value_str})}}}}']:
    in an f-string every doubled brace is one brace. *)
Definition if_line (compare_value_str : string) : string :=
  "{{#if (compare Gift.amount.value " ++ dquote ++ ">" ++ dquote ++ " "
    ++ compare_value_str ++ ")}}".

(** ["{{{{else}}}}"] and ["{{{{/if}}}}"] are plain string literals: their
    braces stay as written. *)
Definition else_line : string := "{{{{else}}}}".
Definition endif_line : string := "{{{{/if}}}}".

Definition compare_value_str (tier : Tier) : string :=
  let min_g := min_gift tier in
  let compare_value := PrimFloat.sub min_g PyFloat.cent in
  PyFloat.format_2f compare_value.

(** The lines one tier appends to [out_lines], at index [i] of [n]. *)
Definition tier_lines (n i : nat) (tier : Tier) : list string :=
  if (i <? n - 1)%nat then
    [ if_line (compare_value_str tier); "<p>"; name tier; "<br>"; get_title tier;
      "</p>"; else_line ]
  else
    [ "<p>"; name tier; "<br>"; get_title tier; "</p>" ].

(** [for i, tier in enumerate(tiers_list)], from index [i] on. *)
Fixpoint enumerate_lines (n i : nat) (tiers_list : list Tier) : list string :=
  match tiers_list with
  | [] => []
  | tier :: rest => tier_lines n i tier ++ enumerate_lines n (S i) rest
  end.

Definition out_lines (tiers_list : list Tier) : list string :=
  let n := List.length tiers_list in
  enumerate_lines n 0 tiers_list ++ repeat endif_line (n - 1).

Definition build_handlebars (tiers_list : list Tier) : string :=
  let n := List.length tiers_list in
  if (n =? 0)%nat then EmptyString
  else String.concat Py.LF (out_lines tiers_list).

End StreamlitApp.

(* ================================================================== *)
(** ** What the specification speaks of *)

Module Spec.
Import Re StreamlitApp.

(** A lone backslash. *)
Definition bs : string := String backslash "".

(** Two texts of the same length that agree up to case, character by
    character: [lit] matches exactly the text [m] under [IGNORECASE]. *)
Fixpoint ci_eqb (lit m : string) : bool :=
  match lit, m with
  | EmptyString, EmptyString => true
  | String p lit', String c m' => eq_ignorecase p c && ci_eqb lit' m'
  | _, _ => false
  end.

(** The document holds a span: the start tag, anything, the end tag, tags
    up to case. *)
Definition has_span (start_tag end_tag doc : string) : Prop :=
  exists pre s mid e post,
    doc = pre ++ s ++ mid ++ e ++ post
    /\ ci_eqb start_tag s = true /\ ci_eqb end_tag e = true.

(** [tag] occurs in [doc], up to case. *)
Definition occurs (tag doc : string) : Prop :=
  exists pre t post, doc = pre ++ t ++ post /\ ci_eqb tag t = true.

(** [tag] matches, up to case, at the head of [s]. *)
Fixpoint ci_prefixb (tag s : string) : bool :=
  match tag, s with
  | EmptyString, _ => true
  | String p tag', String c s' => eq_ignorecase p c && ci_prefixb tag' s'
  | String _ _, EmptyString => false
  end.

(** [tag] matches, up to case, at one of the first [n] offsets of [s]. *)
Fixpoint occurs_before (n : nat) (tag s : string) : bool :=
  match n with
  | O => false
  | S n' =>
      ci_prefixb tag s
      || match s with
         | EmptyString => false
         | String _ s' => occurs_before n' tag s'
         end
  end.

(** [s] ends with [suffix], up to case. *)
Definition ends_with_ci (suffix s : string) : Prop :=
  exists stem t, s = stem ++ t /\ ci_eqb suffix t = true.

(** The template machinery never fires on a text without backslash. *)
Definition no_backslash (s : string) : bool := negb (Py.mem_char backslash s).

(** The region strictly between the first start tag and the first end tag
    after it: group 1 of the helper's own pattern. *)
Definition extract_between (text start_tag end_tag : string) : option string :=
  match search false start_tag end_tag text with
  | Some (_, m, _) => Some (m_group1 m)
  | None => None
  end.

(** Following the spec's words for the replacement: only the first span is
    rewritten, to [start_tag], a newline, [new_inner] verbatim, a newline,
    [end_tag]; the text before it and everything after it stay as they
    are. *)
Definition replace_first_only (doc start_tag end_tag new_inner : string)
  : option string :=
  match search false start_tag end_tag doc with
  | Some (before, _, after) =>
      Some (before ++ start_tag ++ Py.LF ++ new_inner ++ Py.LF ++ end_tag ++ after)
  | None => None
  end.

(** Following the spec's words for the tags: the span keeps the tags in
    the document's own spelling around the new inner text. *)
Definition replace_keeping_tags (doc start_tag end_tag new_inner : string)
  : option string :=
  match search false start_tag end_tag doc with
  | Some (before, m, after) =>
      Some (before ++ m_start m ++ Py.LF ++ new_inner ++ Py.LF ++ m_end m ++ after)
  | None => None
  end.

(** The block of one tier: name and title, each on a line of its own,
    inside the paragraph markers. *)
Definition rendered_block (tier : Tier) : list string :=
  [ "<p>"; name tier; "<br>"; get_title tier; "</p>" ].

(** A tier under a condition: the opening conditional with its threshold,
    the block, the else marker. *)
Definition guarded_lines (tier : Tier) : list string :=
  if_line (compare_value_str tier) :: rendered_block tier ++ [else_line].

(** The number of places of [text] at which [marker] stands. *)
Fixpoint count_marker (marker text : string) : nat :=
  (if String.prefix marker text then 1 else 0)
  + match text with
    | EmptyString => 0
    | String _ text' => count_marker marker text'
    end.

(** The markers of the templating syntax: what opens a conditional and
    what closes one. *)
Definition open_marker : string := "{{#if".
Definition close_marker : string := "{{/if}}".

(** No name and no title of the tiers holds a marker. *)
Definition marker_free (tiers : list Tier) : Prop :=
  forall tier, In tier tiers ->
    count_marker open_marker (name tier) = 0
    /\ count_marker open_marker (get_title tier) = 0
    /\ count_marker close_marker (name tier) = 0
    /\ count_marker close_marker (get_title tier) = 0.

(** Following the builder's documented example for two tiers: the else
    marker and the closing marker with two braces, as the templating syntax
    has them. *)
Definition documented_two_tiers (t1 t2 : Tier) : string :=
  String.concat Py.LF
    ([ if_line "9999.99" ] ++ rendered_block t1 ++ [ "{{else}}" ]
       ++ rendered_block t2 ++ [ "{{/if}}" ]).




End Spec.

(* ================================================================== *)
(** ** More of Python's strings *)

Module PyText.

(** [c.isspace()] on a code point below 256. *)
Definition isspace (c : ascii) : bool :=
  let n := nat_of_ascii c in
  (((9 <=? n) && (n <=? 13)) || ((28 <=? n) && (n <=? 32))
   || (n =? 133) || (n =? 160))%nat.

(** [s.lstrip()] *)
Fixpoint lstrip (s : string) : string :=
  match s with
  | EmptyString => EmptyString
  | String c s' => if isspace c then lstrip s' else s
  end.

(** [s.rstrip()] *)
Fixpoint rstrip (s : string) : string :=
  match s with
  | EmptyString => EmptyString
  | String c s' =>
      let r := rstrip s' in
      if Py.is_empty r && isspace c then EmptyString else String c r
  end.

(** [s.strip()] *)
Definition strip (s : string) : string := rstrip (lstrip s).

(** The truth value of an optional string: [None] and the empty string
    are false. *)
Definition truthy (v : option string) : bool :=
  match v with
  | Some s => negb (Py.is_empty s)
  | None => false
  end.

End PyText.

(* ================================================================== *)
(** ** Token resolution and the client (both files) *)

Module Startup.
Import Re GithubHelpers.

(** What [Github(token)] keeps. *)
Record Github : Type := mkGithub { auth_token : string }.

(** [get_github_client(token)], [token] possibly [None]. *)
Definition get_github_client (token : option string) : outcome Github :=
  match token with
  | Some t =>
      if negb (PyText.truthy token) then Raises (ValueError "GitHub token required")
      else Returns (mkGithub t)
  | None => Raises (ValueError "GitHub token required")
  end.

(** Where a token may come from: [st.secrets.get("GITHUB_TOKEN")], which
    raises when the secrets cannot be read (no secrets file), the value of
    [os.environ.get("GITHUB_TOKEN")], and
    [keyring.get_password("github", "github_token")], which may raise. *)
Record Sources : Type := mkSources
  { secrets_get : exn + option string;
    environ_get : option string;
    keyring_get_password : exn + option string }.

Definition resolve_token (src : Sources) : exn + option string :=
  (* 1) Streamlit secrets: read outside any try *)
  match secrets_get src with
  | inl e => inl e
  | inr secret =>
      if PyText.truthy secret then inr secret
      (* 2) Environment variable *)
      else if PyText.truthy (environ_get src) then inr (environ_get src)
      (* 3) OS keyring *)
      else
        match keyring_get_password src with
        | inr tk => if PyText.truthy tk then inr tk else inr None
        | inl _ => inr None                      (* except Exception: pass *)
        end
  end.

(** The head of the script: the exception of [resolve_token] ends it; it
    stops without a token, and builds the client otherwise. *)
Inductive startup : Type :=
| Crashed (e : exn)             (* token = resolve_token() raised *)
| Stopped                       (* st.error(...); st.stop() *)
| Client (g : outcome Github).

Definition script_start (src : Sources) : startup :=
  match resolve_token src with
  | inl e => Crashed e
  | inr token =>
      if negb (PyText.truthy token) then Stopped
      else Client (get_github_client token)
  end.

End Startup.

(* ================================================================== *)
(** ** streamlit_app.py: choosing and ordering *)

Module Selection.
Import Re GithubHelpers StreamlitApp.

(** [[f for f in list_text_files_in_folder(repo, "updated_letters")
      if f.name.lower().endswith("_live.txt")]] *)
Definition is_live_file (f : ContentFile) : bool :=
  Py.endswith (Py.lower (cf_name f)) "_live.txt".

Definition live_files (repo : Repository) : outcome (list ContentFile) :=
  match list_text_files_in_folder repo "updated_letters" with
  | Returns files => Returns (filter is_live_file files)
  | Raises e => Raises e
  | Unfinished => Unfinished
  end.

(** [sorted(tiers, key=lambda x: x["min_gift"], reverse=True)].  The sort
    compares keys with [<] only and is stable, also when reversed: a tier
    goes before the first tier whose key is not above its own.  For keys
    that can all be compared (no NaN) this order is the only one a stable
    sort can return.  With a NaN among the keys Python's merge sort may
    return another order: the definition stands for [sorted] on numbers
    only, and what is proved of it assumes numbers. *)
Fixpoint insert_desc (tier : Tier) (sorted : list Tier) : list Tier :=
  match sorted with
  | [] => [tier]
  | t :: rest =>
      if PrimFloat.ltb (min_gift tier) (min_gift t) then t :: insert_desc tier rest
      else tier :: t :: rest
  end.

Fixpoint sorted_desc (tiers : list Tier) : list Tier :=
  match tiers with
  | [] => []
  | tier :: rest => insert_desc tier (sorted_desc rest)
  end.

End Selection.

(* ================================================================== *)
(** ** The remote store, and the code that reads and writes it

    The repository object is outside the program.  It is kept abstract: a
    world [W] and, for each PyGithub method the code calls on a file, a
    function from the world and the arguments to what the call gives back
    and the world after it; [get_contents] has one function for a file
    and one for a folder, whose listing is what [GithubHelpers.Repository]
    holds.  Every call is also written to a log, so that what the code asks
    of the store can be stated. *)

Module Remote.
Import Re GithubHelpers StreamlitApp Selection.

(** What the code reads of the [ContentFile] of one file: its path, its
    sha, and the text [decoded_content.decode("utf-8")], unless that
    raises.  A result on which these attributes fail (a folder listing) is
    an exception of the call, which the code treats alike. *)
Record FileContent : Type := mkFileContent
  { fc_path : string;
    fc_sha : string;
    fc_decoded : exn + string }.

Inductive call : Type :=
| GetContents (path : string) (ref : option string)
| UpdateFile (path message content sha branch : string)
| CreateFile (path message content branch : string).

Record Store (W : Type) : Type := mkStore
  { store_list : W -> string -> (exn + contents_reply) * W;
    store_get : W -> string -> option string -> (exn + FileContent) * W;
    store_update : W -> string -> string -> string -> string -> string
                   -> (exn + unit) * W;
    store_create : W -> string -> string -> string -> string -> (exn + unit) * W }.
Arguments store_list {W} _ _ _.
Arguments store_get {W} _ _ _ _.
Arguments store_update {W} _ _ _ _ _ _ _.
Arguments store_create {W} _ _ _ _ _ _.

Record state (W : Type) : Type := mkState
  { world : W;
    log : list call }.
Arguments mkState {W} _ _.
Arguments world {W} _.
Arguments log {W} _.

(** [{"action": ..., "path": ...}] *)
Record write_result : Type := mkWriteResult
  { action : string;
    written_path : string }.

(** The third field of a result row: the write result, or the exception
    (the script shows it as [str(e)]). *)
Inductive detail : Type :=
| Written (res : write_result)
| Failed (e : exn).

(** [(f.name, "ok", res)] or [(f.name, "error", str(e))] *)
Definition row : Type := (string * string * detail)%type.
Definition row_name (r : row) : string := fst (fst r).
Definition row_status (r : row) : string := snd (fst r).
Definition row_detail (r : row) : detail := snd r.

(** What a press of a button leads to. *)
Inductive flow : Type :=
| NotPressed
| ShowError (message : string)            (* st.error *)
| ShowWarning (message : string)          (* st.warning *)
| Finished (results : list row).

Section WithStore.

Context {W : Type} (store : Store W).

Definition repo_get_contents (s : state W) (path : string) (ref : option string)
  : (exn + FileContent) * state W :=
  let '(r, w) := store_get store (world s) path ref in
  (r, mkState w (log s ++ [GetContents path ref])).

Definition repo_update_file (s : state W) (path message content sha branch : string)
  : (exn + unit) * state W :=
  let '(r, w) := store_update store (world s) path message content sha branch in
  (r, mkState w (log s ++ [UpdateFile path message content sha branch])).

Definition repo_create_file (s : state W) (path message content branch : string)
  : (exn + unit) * state W :=
  let '(r, w) := store_create store (world s) path message content branch in
  (r, mkState w (log s ++ [CreateFile path message content branch])).

(** github_helpers.py, [read_file_contents]: the text and the sha. *)
Definition read_file_contents (s : state W) (path : string)
  : (exn + string * string) * state W :=
  match repo_get_contents s path None with
  | (inl e, s1) => (inl e, s1)
  | (inr contents, s1) =>
      match fc_decoded contents with
      | inl e => (inl e, s1)
      | inr raw => (inr (raw, fc_sha contents), s1)
      end
  end.

(** github_helpers.py, [write_or_update_file]: update what is there, and
    on any exception of that try to create; an exception of the creation
    is raised again. *)
Definition write_or_update_file (s : state W) (path new_text commit_message branch : string)
  : (exn + write_result) * state W :=
  let updated :=
    match repo_get_contents s path (Some branch) with
    | (inl e, s1) => (inl e, s1)
    | (inr contents, s1) =>
        repo_update_file s1 (fc_path contents) commit_message new_text
                         (fc_sha contents) branch
    end in
  match updated with
  | (inr _, s2) => (inr (mkWriteResult "updated" path), s2)
  | (inl _, s2) =>
      match repo_create_file s2 path commit_message new_text branch with
      | (inr _, s3) => (inr (mkWriteResult "created" path), s3)
      | (inl e2, s3) => (inl e2, s3)
      end
  end.

(** streamlit_app.py, the body of the wording loop for one file. *)
Definition wording_file (s : state W) (f : ContentFile) (paste_block branch : string)
  : outcome row * state W :=
  match read_file_contents s (cf_path f) with
  | (inl e, s1) => (Returns (cf_name f, "error", Failed e), s1)
  | (inr (original_text, sha), s1) =>
      match safe_replace_between_tags original_text
                                      "<!-- start here -->" "<!-- end here -->"
                                      paste_block with
      | Raises e => (Returns (cf_name f, "error", Failed e), s1)
      | Unfinished => (Unfinished, s1)
      | Returns new_text =>
          let target_path := "updated_letters/" ++ cf_name f in
          let commit_message := "Wording update: injected block into " ++ cf_name f in
          match write_or_update_file s1 target_path new_text commit_message branch with
          | (inr res, s2) => (Returns (cf_name f, "ok", Written res), s2)
          | (inl e, s2) => (Returns (cf_name f, "error", Failed e), s2)
          end
      end
  end.

(** [for f in base_files: ...], the rows appended in order. *)
Fixpoint wording_loop (s : state W) (base_files : list ContentFile)
         (paste_block branch : string) : outcome (list row) * state W :=
  match base_files with
  | [] => (Returns [], s)
  | f :: rest =>
      match wording_file s f paste_block branch with
      | (Returns r, s1) =>
          match wording_loop s1 rest paste_block branch with
          | (Returns rows, s2) => (Returns (r :: rows), s2)
          | other => other
          end
      | (Raises e, s1) => (Raises e, s1)
      | (Unfinished, s1) => (Unfinished, s1)
      end
  end.

(** The wording flow from the button on. *)
Definition wording_update (s : state W) (button : bool) (paste_block : string)
           (confirm_writing : bool) (base_files : list ContentFile) (branch : string)
  : outcome flow * state W :=
  if button then
    if Py.is_empty (PyText.strip paste_block) then
      (Returns (ShowError "Please paste a non-empty block of text."), s)
    else if negb confirm_writing then
      (Returns (ShowWarning "Please check the confirmation checkbox to proceed."), s)
    else
      match wording_loop s base_files paste_block branch with
      | (Returns rows, s1) => (Returns (Finished rows), s1)
      | (Raises e, s1) => (Raises e, s1)
      | (Unfinished, s1) => (Unfinished, s1)
      end
  else (Returns NotPressed, s).

(** The tag pair of a location. *)
Definition signature_tags (loc_key : string) : string * string :=
  if String.eqb loc_key "denver"
  then ("<!-- denver sig start -->", "<!-- denver sig end -->")
  else ("<!-- wslope sig start -->", "<!-- wslope sig end -->").

(** streamlit_app.py, the body of the signature loop for one file. *)
Definition signature_file (s : state W) (f : ContentFile)
           (location snippet branch : string) : outcome row * state W :=
  let loc_key := Py.lower location in
  match read_file_contents s (cf_path f) with
  | (inl e, s1) => (Returns (cf_name f, "error", Failed e), s1)
  | (inr (original_text, sha), s1) =>
      let '(start_tag, end_tag) := signature_tags loc_key in
      match safe_replace_between_tags original_text start_tag end_tag snippet with
      | Raises e => (Returns (cf_name f, "error", Failed e), s1)
      | Unfinished => (Unfinished, s1)
      | Returns new_text =>
          let commit_message :=
            "Signature update (" ++ location ++ ") for " ++ cf_name f in
          match write_or_update_file s1 (cf_path f) new_text commit_message branch with
          | (inr res, s2) => (Returns (cf_name f, "ok", Written res), s2)
          | (inl e, s2) => (Returns (cf_name f, "error", Failed e), s2)
          end
      end
  end.

Fixpoint signature_loop (s : state W) (live : list ContentFile)
         (location snippet branch : string) : outcome (list row) * state W :=
  match live with
  | [] => (Returns [], s)
  | f :: rest =>
      match signature_file s f location snippet branch with
      | (Returns r, s1) =>
          match signature_loop s1 rest location snippet branch with
          | (Returns rows, s2) => (Returns (r :: rows), s2)
          | other => other
          end
      | (Raises e, s1) => (Raises e, s1)
      | (Unfinished, s1) => (Unfinished, s1)
      end
  end.

(** [repo.get_contents(folder_path)] as [list_text_files_in_folder] calls
    it: the repository the helper sees is the store at this moment. *)
Definition repo_list_folder (s : state W) (folder_path : string)
  : Repository * state W :=
  let '(r, w) := store_list store (world s) folder_path in
  (mkRepository (fun _ => r), mkState w (log s ++ [GetContents folder_path None])).

(** The signature flow from the button on: the tiers are sorted, the
    snippet is built, [updated_letters] is listed, and every [_live] text
    file of it is rewritten in place. *)
Definition signature_update (s : state W) (button : bool) (tiers : list Tier)
           (confirm_sig : bool) (location branch : string)
  : outcome flow * state W :=
  if button then
    match tiers with
    | [] => (Returns (ShowError "No signees configured. Add preconfigured or custom signees."), s)
    | _ :: _ =>
        if negb confirm_sig then
          (Returns (ShowWarning "Please check confirmation checkbox to proceed."), s)
        else
          let tiers_sorted := sorted_desc tiers in
          let snippet := build_handlebars tiers_sorted in
          let '(repo, s0) := repo_list_folder s "updated_letters" in
          match live_files repo with
          | Returns live =>
              match signature_loop s0 live location snippet branch with
              | (Returns rows, s1) => (Returns (Finished rows), s1)
              | (Raises e, s1) => (Raises e, s1)
              | (Unfinished, s1) => (Unfinished, s1)
              end
          | Raises e => (Raises e, s0)
          | Unfinished => (Unfinished, s0)
          end
    end
  else (Returns NotPressed, s).

End WithStore.

(** *** What is said about the log *)

Definition is_write (c : call) : bool :=
  match c with
  | GetContents _ _ => false
  | UpdateFile _ _ _ _ _ | CreateFile _ _ _ _ => true
  end.

Definition call_content (c : call) : option string :=
  match c with
  | GetContents _ _ => None
  | UpdateFile _ _ content _ _ | CreateFile _ _ content _ => Some content
  end.

Definition call_branch (c : call) : option string :=
  match c with
  | GetContents _ ref => ref
  | UpdateFile _ _ _ _ branch | CreateFile _ _ _ branch => Some branch
  end.

Definition call_path (c : call) : string :=
  match c with
  | GetContents path _ | UpdateFile path _ _ _ _ | CreateFile path _ _ _ => path
  end.

End Remote.

(* ================================================================== *)
(** ** What the further properties speak of *)

Module MoreSpec.
Import Re GithubHelpers StreamlitApp Spec.

(** No source holds a usable token: the secrets can be read, and each
    source is missing, empty, or (the keyring) failing. *)
Definition no_token (src : Startup.Sources) : Prop :=
  (exists secret, Startup.secrets_get src = inr secret /\ PyText.truthy secret = false)
  /\ PyText.truthy (Startup.environ_get src) = false
  /\ match Startup.keyring_get_password src with
     | inr tk => PyText.truthy tk = false
     | inl _ => True
     end.

(** A tier is not below another: its [min_gift] is not [<] the other's. *)
Definition not_below (a b : Tier) : Prop :=
  PrimFloat.ltb (min_gift a) (min_gift b) = false.

(** The [min_gift] of a tier is a number. *)
Definition is_number (t : Tier) : Prop := Prim2SF (min_gift t) <> S754_nan.

(** Where a float that is a number stands in the order of [<]: by sign
    and kind first, then by exponent, then by mantissa (both reversed
    below zero). *)
Definition rank (x : spec_float) : Z * Z * Z :=
  match x with
  | S754_infinity true => (-2, 0, 0)%Z
  | S754_finite true m e => (-1, - e, - Zpos m)%Z
  | S754_zero _ => (0, 0, 0)%Z
  | S754_nan => (0, 0, 0)%Z
  | S754_finite false m e => (1, e, Zpos m)%Z
  | S754_infinity false => (2, 0, 0)%Z
  end.

Definition lex_lt (a b : Z * Z * Z) : Prop :=
  let '(a1, a2, a3) := a in
  let '(b1, b2, b3) := b in
  (a1 < b1 \/ (a1 = b1 /\ (a2 < b2 \/ (a2 = b2 /\ a3 < b3))))%Z.

(** A tier whose [min_gift] equals [k]: neither is [<] the other. *)
Definition ties_with (k : float) (t : Tier) : bool :=
  negb (PrimFloat.ltb (min_gift t) k) && negb (PrimFloat.ltb k (min_gift t)).

(** Name and title of every tier are free of backslashes. *)
Definition plain_tier (t : Tier) : bool :=
  no_backslash (name t) && no_backslash (get_title t).

End MoreSpec.

(* ================================================================== *)
(** ** What is said about the two batches *)

Module BatchSpec.
Import Re GithubHelpers StreamlitApp Spec Selection Remote.

(** What tells one batch from the other: the tags, the new text, where a
    file goes, and the commit message. *)
Record batch : Type := mkBatch
  { b_start : string;
    b_end : string;
    b_inner : string;
    b_target : ContentFile -> string;
    b_message : ContentFile -> string;
    b_branch : string }.

Definition wording_batch (paste_block branch : string) : batch :=
  mkBatch "<!-- start here -->" "<!-- end here -->" paste_block
          (fun f => "updated_letters/" ++ cf_name f)
          (fun f => "Wording update: injected block into " ++ cf_name f)
          branch.

Definition signature_batch (location snippet branch : string) : batch :=
  mkBatch (fst (signature_tags (Py.lower location)))
          (snd (signature_tags (Py.lower location)))
          snippet
          cf_path
          (fun f => "Signature update (" ++ location ++ ") for " ++ cf_name f)
          branch.

(** A call a batch may make for one of its files: the read of the file,
    the look at its target on the branch, and writes of a text the helper
    returned for the batch's tags and new text, with the batch's message on
    the batch's branch; a creation goes to the file's target. *)
Definition batch_call (b : batch) (files : list ContentFile) (c : call) : Prop :=
  exists f, In f files /\
    match c with
    | GetContents path ref =>
        (path = cf_path f /\ ref = None)
        \/ (path = b_target b f /\ ref = Some (b_branch b))
    | UpdateFile path message content sha branch =>
        message = b_message b f /\ branch = b_branch b
        /\ exists original,
             safe_replace_between_tags original (b_start b) (b_end b) (b_inner b)
             = Returns content
    | CreateFile path message content branch =>
        path = b_target b f /\ message = b_message b f /\ branch = b_branch b
        /\ exists original,
             safe_replace_between_tags original (b_start b) (b_end b) (b_inner b)
             = Returns content
    end.

Section WithStore.

Context {W : Type} (store : Store W).

(** The common shape of the two loop bodies. *)
Definition batch_file (b : batch) (s : state W) (f : ContentFile)
  : outcome row * state W :=
  match read_file_contents store s (cf_path f) with
  | (inl e, s1) => (Returns (cf_name f, "error", Failed e), s1)
  | (inr (original_text, sha), s1) =>
      match safe_replace_between_tags original_text (b_start b) (b_end b) (b_inner b) with
      | Raises e => (Returns (cf_name f, "error", Failed e), s1)
      | Unfinished => (Unfinished, s1)
      | Returns new_text =>
          match write_or_update_file store s1 (b_target b f) new_text (b_message b f)
                                     (b_branch b) with
          | (inr res, s2) => (Returns (cf_name f, "ok", Written res), s2)
          | (inl e, s2) => (Returns (cf_name f, "error", Failed e), s2)
          end
      end
  end.

Fixpoint batch_loop (b : batch) (s : state W) (files : list ContentFile)
  : outcome (list row) * state W :=
  match files with
  | [] => (Returns [], s)
  | f :: rest =>
      match batch_file b s f with
      | (Returns r, s1) =>
          match batch_loop b s1 rest with
          | (Returns rows, s2) => (Returns (r :: rows), s2)
          | other => other
          end
      | (Raises e, s1) => (Raises e, s1)
      | (Unfinished, s1) => (Unfinished, s1)
      end
  end.

End WithStore.

(** A small store to run the code on: the world is the list of the files
    on the one branch, as path and text; a folder lists the files right
    under it; a read finds a file or fails with 404; an update needs the
    file, a creation needs its absence (422). *)
Fixpoint after_prefix (prefix s : string) : option string :=
  match prefix, s with
  | EmptyString, _ => Some s
  | String a prefix', String b s' =>
      if Ascii.eqb a b then after_prefix prefix' s' else None
  | String _ _, EmptyString => None
  end.

Definition entry_in (folder_path : string) (file : string * string) : list ContentFile :=
  match after_prefix (folder_path ++ "/") (fst file) with
  | Some file_name =>
      if Py.mem_char "/"%char file_name then []
      else [mkContentFile "file" file_name (fst file)]
  | None => []
  end.

Fixpoint lookup (path : string) (w : list (string * string)) : option string :=
  match w with
  | [] => None
  | (p, t) :: w' => if String.eqb p path then Some t else lookup path w'
  end.

Definition toy_store : Store (list (string * string)) :=
  mkStore (list (string * string))
    (fun w folder_path =>
       match lookup folder_path w with
       | Some _ => (inr (OneFile (mkContentFile "file" folder_path folder_path)), w)
       | None => (inr (Entries (flat_map (entry_in folder_path) w)), w)
       end)
    (fun w path _ =>
       match lookup path w with
       | Some t => (inr (mkFileContent path "sha" (inr t)), w)
       | None => (inl (GithubException 404), w)
       end)
    (fun w path _ content _ _ =>
       match lookup path w with
       | Some _ => (inr tt, (path, content) :: w)
       | None => (inl (GithubException 404), w)
       end)
    (fun w path _ content _ =>
       match lookup path w with
       | Some _ => (inl (GithubException 422), w)
       | None => (inr tt, (path, content) :: w)
       end).

End BatchSpec.

(* ================================================================== *)
(** ** Facts about strings *)

Module StrFacts.

Lemma app_nil_r (s : string) : s ++ "" = s.
Proof. induction s as [|c s IH]; simpl; [reflexivity | now rewrite IH]. Qed.

Lemma app_assoc (a b c : string) : (a ++ b) ++ c = a ++ (b ++ c).
Proof. induction a as [|x a IH]; simpl; [reflexivity | now rewrite IH]. Qed.

Lemma length_app (a b : string) :
  String.length (a ++ b) = String.length a + String.length b.
Proof. induction a as [|x a IH]; simpl; [reflexivity | now rewrite IH]. Qed.

Lemma app_inv_head (a b c : string) : a ++ b = a ++ c -> b = c.
Proof. induction a as [|x a IH]; simpl; intros H; [assumption | inversion H; auto]. Qed.

Lemma drop_app (a b : string) : Py.drop (String.length a) (a ++ b) = b.
Proof. induction a as [|x a IH]; simpl; [now destruct b | assumption]. Qed.

Lemma length_zero (s : string) : String.length s = 0 -> s = "".
Proof. destruct s; simpl; [reflexivity | discriminate]. Qed.

Lemma is_empty_true (s : string) : Py.is_empty s = true <-> s = "".
Proof. destruct s; simpl; split; congruence. Qed.

Lemma is_empty_app (a b : string) :
  Py.is_empty (a ++ b) = Py.is_empty a && Py.is_empty b.
Proof. destruct a; simpl; reflexivity. Qed.

(** Two ways to cut one text: one of the left parts is a prefix of the
    other. *)
Lemma app_eq_app (a b c d : string) :
  a ++ b = c ++ d ->
  (exists x, c = a ++ x /\ b = x ++ d) \/ (exists x, a = c ++ x /\ d = x ++ b).
Proof.
  revert c. induction a as [|x a IH]; intros c H; simpl in H.
  - left. exists c. split; [reflexivity | assumption].
  - destruct c as [|y c]; simpl in H.
    + right. exists (String x a). split; [reflexivity | now rewrite <- H].
    + inversion H; subst y.
      destruct (IH c H2) as [[z [Hc Hb]] | [z [Ha Hd]]].
      * left. exists z. split; [now rewrite Hc | assumption].
      * right. exists z. split; [now rewrite Ha | assumption].
Qed.

End StrFacts.

(* ================================================================== *)
(** ** Facts about the matcher *)

Module ReFacts.
Import Re Spec StrFacts.

Lemma eq_ignorecase_refl (c : ascii) : eq_ignorecase c c = true.
Proof. unfold eq_ignorecase. apply Ascii.eqb_refl. Qed.

Lemma eq_ignorecase_sym (a b : ascii) : eq_ignorecase a b = eq_ignorecase b a.
Proof. unfold eq_ignorecase. apply Ascii.eqb_sym. Qed.

Lemma eq_ignorecase_trans (a b c : ascii) :
  eq_ignorecase a b = true -> eq_ignorecase b c = true -> eq_ignorecase a c = true.
Proof.
  unfold eq_ignorecase. rewrite !Ascii.eqb_eq. congruence.
Qed.

Lemma ci_eqb_refl (s : string) : ci_eqb s s = true.
Proof.
  induction s as [|c s IH]; simpl; [reflexivity|].
  now rewrite eq_ignorecase_refl, IH.
Qed.

Lemma ci_eqb_sym (a b : string) : ci_eqb a b = ci_eqb b a.
Proof.
  revert b. induction a as [|x a IH]; intros [|y b]; simpl; try reflexivity.
  now rewrite eq_ignorecase_sym, IH.
Qed.

Lemma ci_eqb_trans (a b c : string) :
  ci_eqb a b = true -> ci_eqb b c = true -> ci_eqb a c = true.
Proof.
  revert b c. induction a as [|x a IH]; intros [|y b] [|z c]; simpl; try congruence.
  rewrite !andb_true_iff. intros [H1 H2] [H3 H4]. split.
  - eapply eq_ignorecase_trans; eassumption.
  - eapply IH; eassumption.
Qed.

Lemma ci_eqb_length (a b : string) :
  ci_eqb a b = true -> String.length a = String.length b.
Proof.
  revert b. induction a as [|x a IH]; intros [|y b]; simpl; try congruence.
  rewrite andb_true_iff. intros [_ H]. f_equal. auto.
Qed.

Lemma ci_eqb_empty_l (m : string) : ci_eqb "" m = true -> m = "".
Proof. destruct m; simpl; congruence. Qed.

(** Texts that agree up to case, cut at the same place, agree up to case
    on both sides. *)
Lemma ci_eqb_app (a1 a2 b1 b2 : string) :
  ci_eqb a1 b1 = true -> ci_eqb a2 b2 = true -> ci_eqb (a1 ++ a2) (b1 ++ b2) = true.
Proof.
  revert b1. induction a1 as [|x a1 IH]; intros [|y b1]; simpl; try congruence.
  rewrite andb_true_iff. intros [H1 H2] H3. rewrite H1. simpl. auto.
Qed.

Lemma ci_eqb_split (a1 a2 b : string) :
  ci_eqb (a1 ++ a2) b = true ->
  exists b1 b2, b = b1 ++ b2 /\ ci_eqb a1 b1 = true /\ ci_eqb a2 b2 = true.
Proof.
  revert b. induction a1 as [|x a1 IH]; intros b H; simpl in H.
  - exists "", b. auto.
  - destruct b as [|y b]; [discriminate|].
    apply andb_true_iff in H. destruct H as [H1 H2].
    destruct (IH b H2) as [b1 [b2 [Hb [Ha1 Ha2]]]].
    exists (String y b1), b2. simpl. rewrite H1, Ha1, Hb. auto.
Qed.

(** *** The literal runs *)

Lemma match_literal_Some (lit s m rest : string) :
  match_literal lit s = Some (m, rest) -> s = m ++ rest /\ ci_eqb lit m = true.
Proof.
  revert s m rest. induction lit as [|p lit IH]; intros s m rest H; simpl in H.
  - inversion H; subst. auto.
  - destruct s as [|c s]; [discriminate|].
    destruct (eq_ignorecase p c) eqn:Hpc; [|discriminate].
    destruct (match_literal lit s) as [[m' r']|] eqn:Hm; [|discriminate].
    inversion H; subst. destruct (IH _ _ _ Hm) as [Hs Hci].
    simpl. rewrite Hpc, Hci, Hs. auto.
Qed.

Lemma match_literal_app (lit m rest : string) :
  ci_eqb lit m = true -> match_literal lit (m ++ rest) = Some (m, rest).
Proof.
  revert m. induction lit as [|p lit IH]; intros [|c m] H; simpl in *; try congruence.
  apply andb_true_iff in H. destruct H as [H1 H2].
  now rewrite H1, (IH _ H2).
Qed.

Lemma match_literal_None (lit s : string) :
  match_literal lit s = None ->
  forall m rest, s = m ++ rest -> ci_eqb lit m = false.
Proof.
  intros H m rest Hs. destruct (ci_eqb lit m) eqn:Hci; [|reflexivity].
  rewrite Hs, (match_literal_app _ _ _ Hci) in H. discriminate.
Qed.

(** *** The lazy capture *)

Lemma match_lazy_unfold (end_lit s : string) :
  match_lazy false end_lit s =
  match match_literal end_lit s with
  | Some (m, rest) => Some (EmptyString, m, rest)
  | None =>
      match s with
      | EmptyString => None
      | String c s' =>
          match match_lazy false end_lit s' with
          | Some (g1, m, rest) => Some (String c g1, m, rest)
          | None => None
          end
      end
  end.
Proof. destruct s; reflexivity. Qed.

Lemma match_lazy_Some (end_lit s g1 m rest : string) :
  match_lazy false end_lit s = Some (g1, m, rest) ->
  s = g1 ++ m ++ rest /\ ci_eqb end_lit m = true.
Proof.
  revert g1 m rest. induction s as [|c s IH]; intros g1 m rest H; simpl in H.
  - destruct (match_literal end_lit "") as [[m' r']|] eqn:Hm; [|discriminate].
    inversion H; subst. apply match_literal_Some in Hm. simpl. assumption.
  - destruct (match_literal end_lit (String c s)) as [[m' r']|] eqn:Hm.
    + inversion H; subst. apply match_literal_Some in Hm. simpl. assumption.
    + destruct (match_lazy false end_lit s) as [[[g' m'] r']|] eqn:Hl; [|discriminate].
      inversion H; subst. destruct (IH _ _ _ eq_refl) as [Hs Hci].
      simpl. rewrite Hs. auto.
Qed.

(** The capture is the shortest one: the end tag does not match at any
    earlier offset. *)
Lemma match_lazy_shortest (end_lit s g1 m rest : string) :
  match_lazy false end_lit s = Some (g1, m, rest) ->
  forall k, k < String.length g1 -> match_literal end_lit (Py.drop k s) = None.
Proof.
  revert g1 m rest. induction s as [|c s IH]; intros g1 m rest H k Hk; simpl in H.
  - destruct (match_literal end_lit "") as [[m' r']|] eqn:Hm; [|discriminate].
    inversion H; subst. simpl in Hk. lia.
  - destruct (match_literal end_lit (String c s)) as [[m' r']|] eqn:Hm.
    + inversion H; subst. simpl in Hk. lia.
    + destruct (match_lazy false end_lit s) as [[[g' m'] r']|] eqn:Hl; [|discriminate].
      inversion H; subst. destruct k as [|k]; simpl.
      * assumption.
      * simpl in Hk. eapply IH; [reflexivity | lia].
Qed.

Lemma match_lazy_complete (end_lit s : string) :
  occurs end_lit s -> match_lazy false end_lit s <> None.
Proof.
  intros [pre [t [post [Hs Hci]]]]. subst s.
  induction pre as [|c pre IH]; simpl.
  - rewrite match_lazy_unfold, (match_literal_app _ _ _ Hci). discriminate.
  - destruct (match_literal end_lit (String c (pre ++ t ++ post))) as [[m r]|];
      [discriminate|].
    destruct (match_lazy false end_lit (pre ++ t ++ post)) as [[[g m] r]|];
      [discriminate | contradiction].
Qed.

Lemma match_lazy_None_iff (end_lit s : string) :
  match_lazy false end_lit s = None <-> ~ occurs end_lit s.
Proof.
  split.
  - intros H Hocc. now apply (match_lazy_complete _ _ Hocc).
  - intros H. destruct (match_lazy false end_lit s) as [[[g m] r]|] eqn:Hl; [|reflexivity].
    exfalso. apply H. apply match_lazy_Some in Hl. destruct Hl as [Hs Hci].
    exists g, m, r. auto.
Qed.

(** With [reject_empty] the capture takes at least one character. *)
Lemma match_lazy_reject (end_lit s g1 m rest : string) :
  match_lazy true end_lit s = Some (g1, m, rest) ->
  s = g1 ++ m ++ rest /\ ci_eqb end_lit m = true /\ g1 <> "".
Proof.
  destruct s as [|c s]; simpl; [discriminate|].
  destruct (match_lazy false end_lit s) as [[[g' m'] r']|] eqn:Hl; [|discriminate].
  intros H. inversion H; subst. apply match_lazy_Some in Hl. destruct Hl as [Hs Hci].
  simpl. rewrite Hs. repeat split; [assumption | discriminate].
Qed.

(** *** One anchored match *)

Lemma match_at_Some (adv : bool) (start_lit end_lit s : string) (m : match_obj) (rest : string) :
  match_at adv start_lit end_lit s = Some (m, rest) ->
  s = group0 m ++ rest
  /\ ci_eqb start_lit (m_start m) = true
  /\ ci_eqb end_lit (m_end m) = true
  /\ (adv = true -> group0 m <> "").
Proof.
  unfold match_at, group0.
  destruct (match_literal start_lit s) as [[ms s1]|] eqn:Hs; [|discriminate].
  apply match_literal_Some in Hs. destruct Hs as [Hs Hci].
  destruct (adv && Py.is_empty start_lit && Py.is_empty end_lit) eqn:Hrej.
  - destruct (match_lazy true end_lit s1) as [[[g1 me] r]|] eqn:Hl; [|discriminate].
    intros H. inversion H; subst; simpl.
    apply match_lazy_reject in Hl. destruct Hl as [Hs1 [Hce Hg]].
    rewrite !app_assoc, <- Hs1. repeat split; auto.
    intros _ Habs. destruct ms; [|discriminate]. destruct g1; [congruence | discriminate].
  - destruct (match_lazy false end_lit s1) as [[[g1 me] r]|] eqn:Hl; [|discriminate].
    intros H. inversion H; subst; simpl.
    apply match_lazy_Some in Hl. destruct Hl as [Hs1 Hce].
    rewrite !app_assoc, <- Hs1. repeat split; auto.
    intros Hadv Habs. subst adv. simpl in Hrej.
    destruct ms; [|discriminate]. destruct g1; [|discriminate]. destruct me; [|discriminate].
    apply ci_eqb_length in Hci, Hce. apply StrFacts.length_zero in Hci, Hce.
    subst. discriminate.
Qed.

Lemma match_at_false (start_lit end_lit s : string) :
  match_at false start_lit end_lit s =
  match match_literal start_lit s with
  | None => None
  | Some (ms, s1) =>
      match match_lazy false end_lit s1 with
      | Some (g1, me, rest) => Some (MatchObj ms g1 me, rest)
      | None => None
      end
  end.
Proof. reflexivity. Qed.

(** When a tag is not empty, [must_advance] changes nothing. *)
Lemma match_at_adv_irrelevant (adv : bool) (start_lit end_lit s : string) :
  Py.is_empty start_lit && Py.is_empty end_lit = false ->
  match_at adv start_lit end_lit s = match_at false start_lit end_lit s.
Proof.
  intros H. unfold match_at. simpl.
  rewrite <- andb_assoc, H, andb_false_r. reflexivity.
Qed.

(** *** [search] *)

Lemma search_unfold (adv : bool) (start_lit end_lit s : string) :
  search adv start_lit end_lit s =
  match match_at adv start_lit end_lit s with
  | Some (m, rest) => Some (EmptyString, m, rest)
  | None =>
      match s with
      | EmptyString => None
      | String c s' =>
          match search false start_lit end_lit s' with
          | Some (skipped, m, rest) => Some (String c skipped, m, rest)
          | None => None
          end
      end
  end.
Proof. destruct s; reflexivity. Qed.

Lemma search_adv_irrelevant (adv : bool) (start_lit end_lit s : string) :
  Py.is_empty start_lit && Py.is_empty end_lit = false ->
  search adv start_lit end_lit s = search false start_lit end_lit s.
Proof.
  intros H. rewrite !(search_unfold _ _ _ s), (match_at_adv_irrelevant adv); auto.
Qed.

Lemma search_Some (adv : bool) (start_lit end_lit s skipped : string)
      (m : match_obj) (rest : string) :
  search adv start_lit end_lit s = Some (skipped, m, rest) ->
  s = skipped ++ group0 m ++ rest
  /\ ci_eqb start_lit (m_start m) = true
  /\ ci_eqb end_lit (m_end m) = true.
Proof.
  revert adv skipped. induction s as [|c s IH]; intros adv skipped H;
    rewrite search_unfold in H;
    destruct (match_at adv start_lit end_lit _) as [[m' r']|] eqn:Hm.
  - inversion H; subst. apply match_at_Some in Hm. simpl. tauto.
  - discriminate.
  - inversion H; subst. apply match_at_Some in Hm. simpl. tauto.
  - destruct (search false start_lit end_lit s) as [[[sk m''] r'']|] eqn:Hs; [|discriminate].
    inversion H; subst. destruct (IH _ _ Hs) as [Heq [H1 H2]].
    simpl. rewrite <- Heq. auto.
Qed.

(** A search that must advance leaves less text than it was given. *)
Lemma search_advances (start_lit end_lit s skipped : string) (m : match_obj) (rest : string) :
  search true start_lit end_lit s = Some (skipped, m, rest) ->
  String.length rest < String.length s.
Proof.
  intros H. pose proof (search_Some _ _ _ _ _ _ _ H) as [Heq _].
  rewrite search_unfold in H.
  destruct (match_at true start_lit end_lit s) as [[m' r']|] eqn:Hm.
  - inversion H; subst skipped m' r'. apply match_at_Some in Hm.
    destruct Hm as [_ [_ [_ Hne]]]. specialize (Hne eq_refl).
    rewrite Heq. simpl. rewrite length_app.
    destruct (group0 m); [congruence | simpl; lia].
  - destruct s as [|c s']; [discriminate|].
    destruct (search false start_lit end_lit s') as [[[sk m''] r'']|]; [|discriminate].
    inversion H; subst. rewrite Heq. simpl. rewrite !length_app. lia.
Qed.

Lemma search_length (adv : bool) (start_lit end_lit s skipped : string)
      (m : match_obj) (rest : string) :
  search adv start_lit end_lit s = Some (skipped, m, rest) ->
  String.length s
  = String.length skipped + String.length (group0 m) + String.length rest.
Proof.
  intros H. apply search_Some in H. destruct H as [Heq _].
  rewrite Heq at 1. rewrite !length_app. lia.
Qed.

(** [search] finds a span exactly when the document holds one. *)
Lemma search_complete (start_lit end_lit s : string) :
  has_span start_lit end_lit s -> search false start_lit end_lit s <> None.
Proof.
  intros [pre [t [mid [e [post [Hs [Ht He]]]]]]]. subst s.
  induction pre as [|c pre IH]; simpl "++".
  - rewrite search_unfold, match_at_false, (match_literal_app _ _ _ Ht).
    destruct (match_lazy false end_lit (mid ++ e ++ post)) as [[[g1 me] r]|] eqn:Hl.
    + discriminate.
    + exfalso. apply (match_lazy_complete end_lit (mid ++ e ++ post)); [|assumption].
      exists mid, e, post. auto.
  - rewrite search_unfold.
    destruct (match_at false start_lit end_lit _) as [[m r]|]; [discriminate|].
    destruct (search false start_lit end_lit (pre ++ t ++ mid ++ e ++ post))
      as [[[sk m] r]|]; [discriminate | contradiction].
Qed.

Lemma search_sound (start_lit end_lit s skipped : string) (m : match_obj) (rest : string) :
  search false start_lit end_lit s = Some (skipped, m, rest) ->
  has_span start_lit end_lit s.
Proof.
  intros H. apply search_Some in H. destruct H as [Heq [H1 H2]].
  exists skipped, (m_start m), (m_group1 m), (m_end m), rest.
  unfold group0 in Heq. rewrite !app_assoc in Heq. auto.
Qed.

Lemma search_None_iff (start_lit end_lit s : string) :
  search false start_lit end_lit s = None <-> ~ has_span start_lit end_lit s.
Proof.
  split.
  - intros H Hspan. now apply (search_complete _ _ _ Hspan).
  - intros H. destruct (search false start_lit end_lit s) as [[[sk m] r]|] eqn:Hs;
      [|reflexivity].
    exfalso. apply H. eapply search_sound; eassumption.
Qed.

(** The span found is the leftmost one, and the shortest one starting
    there. *)
Lemma search_leftmost (start_lit end_lit s skipped rest : string) (m : match_obj) :
  search false start_lit end_lit s = Some (skipped, m, rest) ->
  forall pre t mid e post,
    s = pre ++ t ++ mid ++ e ++ post ->
    ci_eqb start_lit t = true -> ci_eqb end_lit e = true ->
    String.length skipped <= String.length pre.
Proof.
  revert skipped. induction s as [|c s IH]; intros skipped Hs pre t mid e post Heq Ht He.
  - rewrite search_unfold in Hs.
    destruct (match_at false start_lit end_lit "") as [[m' r']|]; [|discriminate].
    inversion Hs; subst. simpl. lia.
  - rewrite search_unfold in Hs.
    destruct (match_at false start_lit end_lit (String c s)) as [[m' r']|] eqn:Hm.
    + inversion Hs; subst. simpl. lia.
    + destruct (search false start_lit end_lit s) as [[[sk m'] r']|] eqn:Hs'; [|discriminate].
      inversion Hs; subst. destruct pre as [|x pre]; simpl in Heq.
      * exfalso. rewrite match_at_false, Heq, (match_literal_app _ _ _ Ht) in Hm.
        destruct (match_lazy false end_lit (mid ++ e ++ post)) as [[[g me] r]|] eqn:Hl;
          [discriminate|].
        apply (match_lazy_complete end_lit (mid ++ e ++ post)); [|assumption].
        exists mid, e, post. auto.
      * inversion Heq; subst. simpl.
        specialize (IH _ eq_refl pre t mid e post eq_refl Ht He). lia.
Qed.

Lemma search_shortest (start_lit end_lit s skipped rest : string) (m : match_obj) :
  search false start_lit end_lit s = Some (skipped, m, rest) ->
  forall t mid e post,
    s = skipped ++ t ++ mid ++ e ++ post ->
    ci_eqb start_lit t = true -> ci_eqb end_lit e = true ->
    String.length (m_group1 m) <= String.length mid.
Proof.
  revert skipped. induction s as [|c s IH]; intros skipped Hs t mid e post Heq Ht He;
    rewrite search_unfold in Hs;
    destruct (match_at false start_lit end_lit _) as [[m' r']|] eqn:Hm.
  1, 3: inversion Hs; subst; simpl in Heq;
    rewrite match_at_false, Heq, (match_literal_app _ _ _ Ht) in Hm;
    destruct (match_lazy false end_lit (mid ++ e ++ post)) as [[[g me] r]|] eqn:Hl;
      [|discriminate];
    inversion Hm; subst; simpl;
    destruct (Nat.le_gt_cases (String.length g) (String.length mid)) as [|Hlt];
      [assumption|];
    pose proof (match_lazy_shortest _ _ _ _ _ Hl _ Hlt) as Hnone;
    rewrite drop_app, (match_literal_app _ _ _ He) in Hnone; discriminate.
  - discriminate.
  - destruct (search false start_lit end_lit s) as [[[sk m''] r'']|] eqn:Hs'; [|discriminate].
    inversion Hs; subst. simpl in Heq. inversion Heq; subst.
    eapply IH; eauto.
Qed.

(** *** The replacement loop *)

Lemma sub_loop_enough (start_lit end_lit : string) (items : list titem) :
  forall rounds adv text,
    rounds_needed adv text < rounds ->
    sub_loop rounds adv start_lit end_lit items text <> None.
Proof.
  induction rounds as [|rounds IH]; intros adv text Hlt; [lia|].
  simpl. destruct (search adv start_lit end_lit text) as [[[sk m] rest]|] eqn:Hs;
    [|discriminate].
  assert (Hnext : rounds_needed (Py.is_empty (group0 m)) rest < rounds).
  { pose proof (search_length _ _ _ _ _ _ _ Hs) as Hlen.
    unfold rounds_needed in *. destruct adv.
    - apply search_advances in Hs. destruct (Py.is_empty (group0 m)); lia.
    - destruct (group0 m) as [|x g] eqn:Hg; simpl in *; lia. }
  specialize (IH _ _ Hnext).
  destruct (sub_loop rounds _ start_lit end_lit items rest); [discriminate | congruence].
Qed.

Lemma sub_loop_mono (start_lit end_lit : string) (items : list titem) :
  forall rounds rounds' adv text out,
    sub_loop rounds adv start_lit end_lit items text = Some out ->
    rounds <= rounds' ->
    sub_loop rounds' adv start_lit end_lit items text = Some out.
Proof.
  induction rounds as [|rounds IH]; intros rounds' adv text out H Hle; [discriminate|].
  destruct rounds' as [|rounds']; [lia|]. simpl in *.
  destruct (search adv start_lit end_lit text) as [[[sk m] rest]|]; [|assumption].
  destruct (sub_loop rounds _ start_lit end_lit items rest) as [o|] eqn:Ho; [|discriminate].
  rewrite (IH rounds' _ _ _ Ho); [assumption | lia].
Qed.

(** [pattern.sub] always comes back with a text. *)
Lemma sub_loop_total (start_lit end_lit : string) (items : list titem) (text : string) :
  exists out,
    sub_loop (sub_rounds text) false start_lit end_lit items text = Some out.
Proof.
  destruct (sub_loop (sub_rounds text) false start_lit end_lit items text) as [out|] eqn:H.
  - eauto.
  - exfalso. revert H. apply sub_loop_enough. unfold rounds_needed, sub_rounds. lia.
Qed.

Lemma sub_loop_S (rounds : nat) (adv : bool) (start_lit end_lit : string)
      (items : list titem) (text : string) :
  sub_loop (S rounds) adv start_lit end_lit items text =
  match search adv start_lit end_lit text with
  | None => Some text
  | Some (skipped, m, rest) =>
      match sub_loop rounds (Py.is_empty (group0 m)) start_lit end_lit items rest with
      | Some out => Some (skipped ++ expand items m ++ out)
      | None => None
      end
  end.
Proof. reflexivity. Qed.

(** One round of the loop, whatever the number of rounds granted. *)
Lemma sub_loop_step (start_lit end_lit : string) (items : list titem)
      (text skipped rest : string) (m : match_obj) :
  search false start_lit end_lit text = Some (skipped, m, rest) ->
  group0 m <> "" ->
  exists out,
    sub_loop (sub_rounds rest) false start_lit end_lit items rest = Some out
    /\ sub_loop (sub_rounds text) false start_lit end_lit items text
       = Some (skipped ++ expand items m ++ out).
Proof.
  intros Hs Hne. destruct (sub_loop_total start_lit end_lit items rest) as [out Hout].
  exists out. split; [assumption|].
  pose proof (search_length _ _ _ _ _ _ _ Hs) as Hlen.
  unfold sub_rounds in *.
  replace (2 * String.length text + 2) with (S (2 * String.length text + 1)) by lia.
  rewrite sub_loop_S, Hs.
  assert (He : Py.is_empty (group0 m) = false).
  { destruct (group0 m); [contradiction | reflexivity]. }
  rewrite He.
  rewrite (sub_loop_mono _ _ _ _ (2 * String.length text + 1) _ _ _ Hout); [reflexivity|].
  destruct (group0 m); [contradiction | simpl in Hlen; lia].
Qed.

Lemma sub_loop_no_match (start_lit end_lit : string) (items : list titem) (text : string) :
  search false start_lit end_lit text = None ->
  sub_loop (sub_rounds text) false start_lit end_lit items text = Some text.
Proof.
  intros H. unfold sub_rounds.
  replace (2 * String.length text + 2) with (S (2 * String.length text + 1)) by lia.
  now rewrite sub_loop_S, H.
Qed.

(** *** Templates without backslash *)

Lemma mem_char_app (c : ascii) (a b : string) :
  Py.mem_char c (a ++ b) = Py.mem_char c a || Py.mem_char c b.
Proof.
  induction a as [|x a IH]; cbn [Py.mem_char append]; [reflexivity|].
  now rewrite IH, orb_assoc.
Qed.

Lemma no_backslash_app (a b : string) :
  no_backslash (a ++ b) = no_backslash a && no_backslash b.
Proof. unfold no_backslash. now rewrite mem_char_app, negb_orb. Qed.

Lemma parse_template_literal (s : string) :
  no_backslash s = true ->
  parse_template s = inr (map TLit (list_ascii_of_string s)).
Proof.
  unfold no_backslash. induction s as [|c s IH]; intros H; [reflexivity|].
  cbn [Py.mem_char] in H. rewrite negb_orb, andb_true_iff in H. destruct H as [Hc Hs].
  cbn [parse_template list_ascii_of_string map].
  rewrite Ascii.eqb_sym in Hc. rewrite Hc, (IH Hs). reflexivity.
Qed.

Lemma expand_literal (s : string) (m : match_obj) :
  expand (map TLit (list_ascii_of_string s)) m = s.
Proof. induction s as [|c s IH]; simpl; [reflexivity | now rewrite IH]. Qed.

(** *** Prefix tests *)

Lemma ci_prefixb_match_literal (tag s : string) :
  ci_prefixb tag s = true <-> match_literal tag s <> None.
Proof.
  revert s. induction tag as [|p tag IH]; intros s; simpl.
  - split; [discriminate | reflexivity].
  - destruct s as [|c s]; [split; congruence|].
    destruct (eq_ignorecase p c); simpl; [|split; congruence].
    rewrite IH. destruct (match_literal tag s) as [[m r]|]; split; congruence.
Qed.

(** Whether [tag] matches at the head depends on the first
    [length tag] characters only, and on those only up to case. *)
Lemma ci_prefixb_ci (tag u v x y : string) :
  ci_eqb u v = true ->
  String.length tag <= String.length u ->
  ci_prefixb tag (u ++ x) = ci_prefixb tag (v ++ y).
Proof.
  revert u v. induction tag as [|p tag IH]; intros u v Huv Hlen; [reflexivity|].
  destruct u as [|a u], v as [|b v]; simpl in *; try discriminate; try lia.
  apply andb_true_iff in Huv. destruct Huv as [Hab Huv].
  rewrite (IH u v Huv) by lia. f_equal.
  unfold eq_ignorecase in *. rewrite Ascii.eqb_eq in Hab. now rewrite Hab.
Qed.

Lemma occurs_ci_prefixb (tag pre t post : string) :
  ci_eqb tag t = true -> ci_prefixb tag (t ++ post) = true.
Proof.
  intros H. apply ci_prefixb_match_literal. now rewrite (match_literal_app _ _ _ H).
Qed.

End ReFacts.

(* ================================================================== *)
(** ** github_helpers.py: listing *)

Module ListingFacts.
Import Re Spec StrFacts ReFacts GithubHelpers.

Lemma lower_app (a b : string) : Py.lower (a ++ b) = Py.lower a ++ Py.lower b.
Proof. induction a as [|x a IH]; simpl; [reflexivity | now rewrite IH]. Qed.

Lemma lower_eq_app (s x y : string) :
  Py.lower s = x ++ y ->
  exists a b, s = a ++ b /\ Py.lower a = x /\ Py.lower b = y.
Proof.
  revert s. induction x as [|c x IH]; intros s H; simpl in H.
  - exists "", s. auto.
  - destruct s as [|d s]; [discriminate|]. simpl in H. inversion H; subst c.
    destruct (IH s H2) as [a [b [Hs [Ha Hb]]]].
    exists (String d a), b. simpl. rewrite Hs, Ha. auto.
Qed.

Lemma ci_eqb_lower (a b : string) :
  ci_eqb a b = true <-> Py.lower a = Py.lower b.
Proof.
  revert b. induction a as [|x a IH]; intros [|y b]; simpl; try (split; congruence).
  unfold eq_ignorecase. rewrite andb_true_iff, Ascii.eqb_eq, IH.
  split; [intros [H1 H2]; congruence | intros H; inversion H; auto].
Qed.

Lemma endswith_iff (s suffix : string) :
  Py.endswith s suffix = true <-> exists stem, s = stem ++ suffix.
Proof.
  induction s as [|c s IH]; cbn [Py.endswith].
  - destruct (String.eqb_spec "" suffix) as [He|Hne].
    + split; [exists ""; now subst | reflexivity].
    + split; [discriminate|]. intros [stem H]. destruct stem; simpl in H; congruence.
  - destruct (String.eqb_spec (String c s) suffix) as [He|Hne].
    + split; [exists ""; now subst | reflexivity].
    + rewrite IH. split.
      * intros [stem H]. exists (String c stem). simpl. now rewrite H.
      * intros [stem H]. destruct stem as [|d stem]; simpl in H; [congruence|].
        inversion H. eauto.
Qed.

(** The suffix test of the listing is the case-blind one. *)
Lemma lower_endswith_txt (s : string) :
  Py.endswith (Py.lower s) ".txt" = true <-> ends_with_ci ".txt" s.
Proof.
  rewrite endswith_iff. split.
  - intros [stem H]. apply lower_eq_app in H. destruct H as [a [b [Hs [_ Hb]]]].
    exists a, b. split; [assumption|]. apply ci_eqb_lower. now rewrite Hb.
  - intros [stem [t [Hs Hci]]]. apply ci_eqb_lower in Hci.
    exists (Py.lower stem). rewrite Hs, lower_app, <- Hci. reflexivity.
Qed.

(** C10, as the code has it. [list_text_files_in_folder] returns the empty list
    when reading the folder raises; when the reading yields the entries of
    a folder it returns, in the folder's order, exactly the entries whose
    type is ["file"] and whose name ends with [".txt"] whatever the case of
    its letters; and when the path is that of a file, so that the reading
    yields a lone [ContentFile], the [TypeError] of iterating over it
    reaches the caller. *)
Theorem list_text_files_in_folder_cases (repo : Repository) (folder_path : string) :
  (forall e, get_contents repo folder_path = inl e ->
             list_text_files_in_folder repo folder_path = Returns [])
  /\ (forall contents,
        get_contents repo folder_path = inr (Entries contents) ->
        list_text_files_in_folder repo folder_path
        = Returns (filter is_text_file contents)
        /\ forall c, In c (filter is_text_file contents) <->
                     In c contents /\ cf_type c = "file"
                     /\ ends_with_ci ".txt" (cf_name c))
  /\ (forall c, get_contents repo folder_path = inr (OneFile c) ->
                list_text_files_in_folder repo folder_path
                = Raises (TypeError "'ContentFile' object is not iterable")).
Proof.
  unfold list_text_files_in_folder. split; [|split].
  - intros e H. now rewrite H.
  - intros contents H. rewrite H. split; [reflexivity|].
    intros c. rewrite filter_In. unfold is_text_file.
    rewrite andb_true_iff, String.eqb_eq, lower_endswith_txt. tauto.
  - intros c H. now rewrite H.
Qed.

(** A folder with a letter in upper case, a folder of its own and a
    picture: the letters are kept whatever the case of their suffix. *)
Lemma list_text_files_in_folder_cases_witness :
  let upper := mkContentFile "file" "THANKS.TXT" "base_templates/THANKS.TXT" in
  let mixed := mkContentFile "file" "note.Txt" "base_templates/note.Txt" in
  let folder := mkContentFile "dir" "old.txt" "base_templates/old.txt" in
  let picture := mkContentFile "file" "logo.png" "base_templates/logo.png" in
  let repo := mkRepository (fun _ => inr (Entries [upper; folder; picture; mixed])) in
  list_text_files_in_folder repo "base_templates" = Returns [upper; mixed]
  /\ ends_with_ci ".txt" "THANKS.TXT".
Proof.
  intros upper mixed folder picture repo.
  destruct (list_text_files_in_folder_cases repo "base_templates") as [_ [H _]].
  destruct (H [upper; folder; picture; mixed] eq_refl) as [Hret Hin].
  split; [exact Hret|].
  exact (proj2 (proj2 (proj1 (Hin upper) (or_introl eq_refl)))).
Defined.

(** C10, refuted as stated: when the path is that of a file, the
    helper does not return: the [TypeError] reaches its caller. *)
Theorem file_path_makes_listing_raise :
  let readme := mkContentFile "file" "README.txt" "README.txt" in
  let repo := mkRepository (fun _ => inr (OneFile readme)) in
  list_text_files_in_folder repo "README.txt"
  = Raises (TypeError "'ContentFile' object is not iterable")
  /\ forall files, list_text_files_in_folder repo "README.txt" <> Returns files.
Proof. intros readme repo. split; [reflexivity | discriminate]. Qed.

End ListingFacts.

(* ================================================================== *)
(** ** github_helpers.py: replacement between tags *)

Module ReplaceFacts.
Import Re Spec StrFacts ReFacts GithubHelpers.

(** Unless both tags are empty, a match is never empty. *)
Lemma group0_nonempty (adv : bool) (start_tag end_tag s skipped rest : string)
      (m : match_obj) :
  search adv start_tag end_tag s = Some (skipped, m, rest) ->
  Py.is_empty start_tag && Py.is_empty end_tag = false ->
  group0 m <> "".
Proof.
  intros Hs Hne Habs. apply search_Some in Hs. destruct Hs as [_ [H1 H2]].
  unfold group0 in Habs.
  destruct (m_start m); [|discriminate]. destruct (m_group1 m); [|discriminate].
  destruct (m_end m); [|discriminate].
  apply ci_eqb_length in H1, H2. apply length_zero in H1, H2. subst. discriminate.
Qed.

(** The helper never uses up the rounds of its loop. *)
Lemma safe_replace_finishes (original_text start_tag end_tag new_inner_text : string) :
  safe_replace_between_tags original_text start_tag end_tag new_inner_text <> Unfinished.
Proof.
  unfold safe_replace_between_tags.
  destruct (search false start_tag end_tag original_text); [|discriminate].
  destruct (parse_template _) as [e|items]; [discriminate|].
  destruct (sub_loop_total start_tag end_tag items original_text) as [out H].
  rewrite H. discriminate.
Qed.

(** One round of the helper on a replacement without backslash: the first
    span becomes the replacement text, and what follows it is what the loop
    makes of the rest. *)
Lemma safe_replace_round (doc start_tag end_tag new_inner before after : string)
      (m : match_obj) :
  let replacement := start_tag ++ Py.LF ++ new_inner ++ Py.LF ++ end_tag in
  no_backslash replacement = true ->
  search false start_tag end_tag doc = Some (before, m, after) ->
  group0 m <> "" ->
  exists out,
    sub_loop (sub_rounds after) false start_tag end_tag
             (map TLit (list_ascii_of_string replacement)) after = Some out
    /\ safe_replace_between_tags doc start_tag end_tag new_inner
       = Returns (before ++ replacement ++ out).
Proof.
  intros replacement Hnb Hs Hne.
  destruct (sub_loop_step start_tag end_tag (map TLit (list_ascii_of_string replacement))
                          _ _ _ _ Hs Hne) as [out [Hout Hdoc]].
  exists out. split; [assumption|].
  unfold safe_replace_between_tags. rewrite Hs.
  fold replacement. rewrite (parse_template_literal _ Hnb), Hdoc, expand_literal.
  reflexivity.
Qed.

(** The same loop result, read as the helper's own answer on the rest. *)
Lemma safe_replace_rest (after start_tag end_tag new_inner out : string) :
  let replacement := start_tag ++ Py.LF ++ new_inner ++ Py.LF ++ end_tag in
  no_backslash replacement = true ->
  sub_loop (sub_rounds after) false start_tag end_tag
           (map TLit (list_ascii_of_string replacement)) after = Some out ->
  (search false start_tag end_tag after = None -> out = after)
  /\ (search false start_tag end_tag after <> None ->
      safe_replace_between_tags after start_tag end_tag new_inner = Returns out).
Proof.
  intros replacement Hnb Hout. split.
  - intros Hnone. rewrite (sub_loop_no_match _ _ _ _ Hnone) in Hout. congruence.
  - intros Hsome. unfold safe_replace_between_tags.
    destruct (search false start_tag end_tag after); [|congruence].
    fold replacement. now rewrite (parse_template_literal _ Hnb), Hout.
Qed.

(** C5. The helper raises the [ValueError] naming both searched tags
    exactly when the document holds no span [start_tag ... end_tag] up to
    case, in particular whenever one of the tags does not occur; no other
    [ValueError] is raised, and on that path no text is returned. *)
Theorem safe_replace_raises_iff_no_span
        (original_text start_tag end_tag new_inner_text : string) :
  let r := safe_replace_between_tags original_text start_tag end_tag new_inner_text in
  (r = Raises (ValueError ("Tags not found: " ++ start_tag ++ " ... " ++ end_tag))
   <-> ~ has_span start_tag end_tag original_text)
  /\ (forall msg, r = Raises (ValueError msg) ->
                  msg = "Tags not found: " ++ start_tag ++ " ... " ++ end_tag)
  /\ (~ occurs start_tag original_text ->
      r = Raises (ValueError (tags_not_found start_tag end_tag)))
  /\ (~ occurs end_tag original_text ->
      r = Raises (ValueError (tags_not_found start_tag end_tag)))
  /\ (~ has_span start_tag end_tag original_text -> forall new_text, r <> Returns new_text).
Proof.
  intros r.
  assert (Hno : ~ has_span start_tag end_tag original_text ->
                r = Raises (ValueError (tags_not_found start_tag end_tag))).
  { intros H. apply search_None_iff in H. subst r.
    unfold safe_replace_between_tags. now rewrite H. }
  assert (Hyes : forall msg, r = Raises (ValueError msg) ->
                             ~ has_span start_tag end_tag original_text
                             /\ msg = tags_not_found start_tag end_tag).
  { intros msg H. subst r. unfold safe_replace_between_tags in H.
    destruct (search false start_tag end_tag original_text) as [[[sk m] rest]|] eqn:Hs.
    - destruct (parse_template _) as [[|]|items]; simpl in H; try discriminate.
      destruct (sub_loop _ _ _ _ _ _); discriminate.
    - apply search_None_iff in Hs. split; [assumption | congruence]. }
  repeat split.
  - intros H. now apply (Hyes _ H).
  - exact Hno.
  - intros msg H. now apply (Hyes _ H).
  - intros H. apply Hno. intros [pre [s [mid [e [post [Heq [Hs He]]]]]]].
    apply H. exists pre, s, (mid ++ e ++ post). auto.
  - intros H. apply Hno. intros [pre [s [mid [e [post [Heq [Hs He]]]]]]].
    apply H. exists (pre ++ s ++ mid), e, post. rewrite !app_assoc. auto.
  - intros H new_text Hr. rewrite (Hno H) in Hr. discriminate.
Qed.

(** C1, as the code has it. With a replacement free of backslashes and
    tags not both empty, the helper rewrites every span, not only the first:
    the first span becomes the replacement, the text before it is kept, and
    the text after it is kept only if it holds no further span; otherwise
    that text is itself rewritten the way the helper rewrites a whole
    document.  The first span is the leftmost one (no span starts before
    it) and the shortest one starting there. *)
Theorem safe_replace_rewrites_every_span
        (doc start_tag end_tag new_inner before after : string) (m : match_obj) :
  no_backslash (start_tag ++ Py.LF ++ new_inner ++ Py.LF ++ end_tag) = true ->
  Py.is_empty start_tag && Py.is_empty end_tag = false ->
  search false start_tag end_tag doc = Some (before, m, after) ->
  (~ has_span start_tag end_tag after ->
   safe_replace_between_tags doc start_tag end_tag new_inner
   = Returns (before ++ (start_tag ++ Py.LF ++ new_inner ++ Py.LF ++ end_tag) ++ after))
  /\ (has_span start_tag end_tag after ->
      exists out,
        safe_replace_between_tags after start_tag end_tag new_inner = Returns out
        /\ safe_replace_between_tags doc start_tag end_tag new_inner
           = Returns (before ++ (start_tag ++ Py.LF ++ new_inner ++ Py.LF ++ end_tag) ++ out))
  /\ doc = before ++ (m_start m ++ m_group1 m ++ m_end m) ++ after
  /\ (forall pre t mid e post,
        doc = pre ++ t ++ mid ++ e ++ post ->
        ci_eqb start_tag t = true -> ci_eqb end_tag e = true ->
        String.length before <= String.length pre
        /\ (pre = before -> String.length (m_group1 m) <= String.length mid)).
Proof.
  intros Hnb Hne Hs.
  assert (Hfirst : doc = before ++ (m_start m ++ m_group1 m ++ m_end m) ++ after
                   /\ (forall pre t mid e post,
                         doc = pre ++ t ++ mid ++ e ++ post ->
                         ci_eqb start_tag t = true -> ci_eqb end_tag e = true ->
                         String.length before <= String.length pre
                         /\ (pre = before ->
                             String.length (m_group1 m) <= String.length mid))).
  { split; [now apply search_Some in Hs|].
    intros pre t mid e post Heq Ht He. split.
    - eapply search_leftmost; eassumption.
    - intros Hpre. subst pre. eapply search_shortest; eassumption. }
  destruct Hfirst as [Hdecomp Hmin].
  pose proof (group0_nonempty _ _ _ _ _ _ _ Hs Hne) as Hg.
  destruct (safe_replace_round _ _ _ _ _ _ _ Hnb Hs Hg) as [out [Hout Hdoc]].
  destruct (safe_replace_rest _ _ _ _ _ Hnb Hout) as [Hnone Hsome].
  split; [|split; [|split; assumption]].
  - intros Hno. apply search_None_iff in Hno. rewrite Hdoc, (Hnone Hno). reflexivity.
  - intros Hspan. exists out. split; [|assumption].
    apply Hsome. now apply search_complete.
Qed.

Lemma safe_replace_rewrites_every_span_witness :
  let doc := "a<!-- start here -->x<!-- end here -->b<!-- START HERE -->y<!-- end here -->c" in
  let after := "b<!-- START HERE -->y<!-- end here -->c" in
  let replacement := "<!-- start here -->" ++ Py.LF ++ "N" ++ Py.LF ++ "<!-- end here -->" in
  has_span "<!-- start here -->" "<!-- end here -->" after
  /\ exists out,
      safe_replace_between_tags after "<!-- start here -->" "<!-- end here -->" "N"
      = Returns out
      /\ safe_replace_between_tags doc "<!-- start here -->" "<!-- end here -->" "N"
         = Returns ("a" ++ replacement ++ out).
Proof.
  intros doc after replacement.
  assert (Hspan : has_span "<!-- start here -->" "<!-- end here -->" after).
  { exists "b", "<!-- START HERE -->", "y", "<!-- end here -->", "c".
    repeat split; reflexivity. }
  split; [exact Hspan|].
  refine (proj1 (proj2 (safe_replace_rewrites_every_span
                          doc "<!-- start here -->" "<!-- end here -->" "N" "a" after
                          (MatchObj "<!-- start here -->" "x" "<!-- end here -->")
                          _ _ _)) Hspan); reflexivity.
Defined.

(** C1, refuted as stated: on a document with two spans the helper rewrites
    both, so its result is not the text in which only the first span is
    rewritten. *)
Lemma second_span_is_rewritten_too :
  let doc := "<!-- start here -->x<!-- end here -->-<!-- start here -->y<!-- end here -->" in
  replace_first_only doc "<!-- start here -->" "<!-- end here -->" "N"
  = Some ("<!-- start here -->" ++ Py.LF ++ "N" ++ Py.LF ++ "<!-- end here -->"
          ++ "-<!-- start here -->y<!-- end here -->")
  /\ safe_replace_between_tags doc "<!-- start here -->" "<!-- end here -->" "N"
     = Returns ("<!-- start here -->" ++ Py.LF ++ "N" ++ Py.LF ++ "<!-- end here -->"
                ++ "-<!-- start here -->" ++ Py.LF ++ "N" ++ Py.LF ++ "<!-- end here -->")
  /\ safe_replace_between_tags doc "<!-- start here -->" "<!-- end here -->" "N"
     <> Returns ("<!-- start here -->" ++ Py.LF ++ "N" ++ Py.LF ++ "<!-- end here -->"
                 ++ "-<!-- start here -->y<!-- end here -->").
Proof.
  intros doc. split; [reflexivity|]. split; [reflexivity|].
  intros H. vm_compute in H. discriminate.
Qed.

(** C3, on the failing inputs. A pasted block with a backslash is not
    inserted verbatim: the helper hands the replacement to [pattern.sub],
    which reads backslash-t as a tab, and refuses backslash-o with
    [re.error]; the spec's text, with the block as given, is not
    returned. *)
Theorem backslash_block_is_not_verbatim :
  let doc := "<!-- start here -->old<!-- end here -->" in
  let tabbed := "C:" ++ bs ++ "temp" in
  let cheer := "hurray " ++ bs ++ "o/" in
  replace_first_only doc "<!-- start here -->" "<!-- end here -->" tabbed
  = Some ("<!-- start here -->" ++ Py.LF ++ "C:" ++ bs ++ "temp" ++ Py.LF
          ++ "<!-- end here -->")
  /\ safe_replace_between_tags doc "<!-- start here -->" "<!-- end here -->" tabbed
     = Returns ("<!-- start here -->" ++ Py.LF ++ "C:" ++ String "009"%char "emp" ++ Py.LF
                ++ "<!-- end here -->")
  /\ safe_replace_between_tags doc "<!-- start here -->" "<!-- end here -->" tabbed
     <> Returns ("<!-- start here -->" ++ Py.LF ++ tabbed ++ Py.LF ++ "<!-- end here -->")
  /\ safe_replace_between_tags doc "<!-- start here -->" "<!-- end here -->" cheer
     = Raises re_error.
Proof.
  intros doc tabbed cheer. repeat split; try reflexivity.
  intros H. vm_compute in H. discriminate.
Qed.

(** C4, on the failing input. The tags are matched whatever their case,
    but the span is rewritten with the tags as the caller spelled them: a
    document with upper-case markers comes back with lower-case ones, not
    with its own. *)
Theorem document_tag_case_is_lost :
  let doc := "Dear donor,<!-- START HERE -->old<!-- END HERE -->Regards" in
  replace_keeping_tags doc "<!-- start here -->" "<!-- end here -->" "new"
  = Some ("Dear donor,<!-- START HERE -->" ++ Py.LF ++ "new" ++ Py.LF
          ++ "<!-- END HERE -->Regards")
  /\ safe_replace_between_tags doc "<!-- start here -->" "<!-- end here -->" "new"
     = Returns ("Dear donor,<!-- start here -->" ++ Py.LF ++ "new" ++ Py.LF
                ++ "<!-- end here -->Regards")
  /\ safe_replace_between_tags doc "<!-- start here -->" "<!-- end here -->" "new"
     <> Returns ("Dear donor,<!-- START HERE -->" ++ Py.LF ++ "new" ++ Py.LF
                 ++ "<!-- END HERE -->Regards").
Proof.
  intros doc. split; [reflexivity|]. split; [reflexivity|].
  intros H. vm_compute in H. discriminate.
Qed.

(** *** Finding the rewritten span again *)

Lemma search_skips_head (start_tag end_tag s skipped rest : string) (c : ascii)
      (m : match_obj) :
  search false start_tag end_tag (String c s) = Some (String c skipped, m, rest) ->
  match_at false start_tag end_tag (String c s) = None
  /\ search false start_tag end_tag s = Some (skipped, m, rest).
Proof.
  intros H. rewrite search_unfold in H.
  destruct (match_at false start_tag end_tag (String c s)) as [[m' r']|]; [discriminate|].
  destruct (search false start_tag end_tag s) as [[[sk m'] r']|]; [|discriminate].
  inversion H; subst. auto.
Qed.

(** Where the first span started, the start tag as the caller spelled it
    is found first again, whatever follows it. *)
Lemma search_in_rewritten (start_tag end_tag X g me r : string) :
  match_lazy false end_tag X = Some (g, me, r) ->
  forall before (m : match_obj) (rest : string),
    search false start_tag end_tag (before ++ group0 m ++ rest) = Some (before, m, rest) ->
    search false start_tag end_tag (before ++ start_tag ++ X)
    = Some (before, MatchObj start_tag g me, r).
Proof.
  intros HX. induction before as [|c before IH]; intros m rest Hs.
  - simpl "++". rewrite search_unfold, match_at_false.
    rewrite (match_literal_app _ _ _ (ci_eqb_refl start_tag)), HX. reflexivity.
  - simpl "++" in *. apply search_skips_head in Hs. destruct Hs as [Hfail Htail].
    rewrite search_unfold, (IH _ _ Htail).
    destruct (match_at false start_tag end_tag (String c (before ++ start_tag ++ X)))
      as [[m' r']|] eqn:Hm; [exfalso | reflexivity].
    (* the start tag would then match at the same place in the document *)
    pose proof (search_Some _ _ _ _ _ _ _ Htail) as [_ [Hcs _]].
    assert (Hpre : ci_prefixb start_tag (String c (before ++ group0 m ++ rest)) = true).
    { unfold group0. rewrite app_assoc.
      change (String c (before ++ m_start m ++ (m_group1 m ++ m_end m) ++ rest))
        with (String c before ++ m_start m ++ (m_group1 m ++ m_end m) ++ rest).
      rewrite <- (app_assoc (String c before)).
      rewrite <- (ci_prefixb_ci start_tag (String c before ++ start_tag)
                                (String c before ++ m_start m) X).
      - rewrite app_assoc. apply ci_prefixb_match_literal.
        rewrite match_at_false in Hm.
        simpl "++". destruct (match_literal start_tag _); [discriminate | discriminate].
      - apply ci_eqb_app; [apply ci_eqb_refl | assumption].
      - rewrite length_app. lia. }
    apply ci_prefixb_match_literal in Hpre.
    rewrite match_at_false in Hfail.
    destruct (match_literal start_tag (String c (before ++ group0 m ++ rest)))
      as [[ms s1]|] eqn:Hl; [|congruence].
    destruct (match_lazy false end_tag s1) as [[[g' me'] r'']|] eqn:Hz; [discriminate|].
    apply match_lazy_None_iff in Hz. apply Hz.
    apply match_literal_Some in Hl. destruct Hl as [Heq Hms].
    apply ci_eqb_length in Hms, Hcs.
    pose proof (search_Some _ _ _ _ _ _ _ Htail) as [_ [_ Hce]].
    unfold group0 in Heq.
    change (String c (before ++ (m_start m ++ m_group1 m ++ m_end m) ++ rest))
      with (String c before ++ (m_start m ++ m_group1 m ++ m_end m) ++ rest) in Heq.
    rewrite !app_assoc in Heq. rewrite <- (app_assoc (String c before)) in Heq.
    symmetry in Heq. apply app_eq_app in Heq.
    destruct Heq as [[x [Hv Hs1]] | [x [Hv _]]].
    + exists (x ++ m_group1 m), (m_end m), rest. rewrite Hs1, !app_assoc. auto.
    + apply (f_equal String.length) in Hv. rewrite !length_app in Hv. simpl in Hv. lia.
Qed.

(** When the end tag does not occur earlier in the text the helper wrote,
    the lazy capture stops at the end tag the helper wrote. *)
Lemma match_lazy_written_end (end_tag out : string) :
  forall inner,
    occurs_before (String.length inner) end_tag (inner ++ end_tag) = false ->
    match_lazy false end_tag (inner ++ end_tag ++ out) = Some (inner, end_tag, out).
Proof.
  induction inner as [|c inner IH]; intros H.
  - simpl "++". rewrite match_lazy_unfold.
    now rewrite (match_literal_app _ _ _ (ci_eqb_refl end_tag)).
  - cbn [String.length occurs_before] in H. apply orb_false_iff in H.
    destruct H as [Hhead Htail]. simpl "++" in *.
    rewrite match_lazy_unfold, (IH Htail).
    destruct (match_literal end_tag (String c (inner ++ end_tag ++ out)))
      as [[m r]|] eqn:Hl; [exfalso | reflexivity].
    assert (Hp : ci_prefixb end_tag (String c (inner ++ end_tag ++ out)) = true).
    { apply ci_prefixb_match_literal. congruence. }
    change (String c (inner ++ end_tag ++ out))
      with (String c inner ++ end_tag ++ out) in Hp.
    rewrite <- app_assoc in Hp.
    rewrite (ci_prefixb_ci end_tag _ (String c inner ++ end_tag) out "") in Hp.
    + rewrite app_nil_r in Hp. simpl "++" in Hp. congruence.
    + apply ci_eqb_refl.
    + rewrite length_app. lia.
Qed.

End ReplaceFacts.

(* ================================================================== *)
(** ** streamlit_app.py: the shape of the snippet *)

Module SnippetFacts.
Import Spec StrFacts StreamlitApp.
Local Open Scope nat_scope.

(** C9. The builder returns the empty string on the empty tier list. *)
Theorem build_handlebars_nil : build_handlebars [] = "".
Proof. reflexivity. Qed.

(** The loop over the tiers: every tier but the last goes under a
    condition, the last is written bare. *)
Lemma enumerate_lines_snoc (n : nat) (last : Tier) :
  forall (init : list Tier) (i : nat),
    i + List.length init + 1 = n ->
    enumerate_lines n i (init ++ [last])
    = (flat_map guarded_lines init ++ rendered_block last)%list.
Proof.
  induction init as [|t init IH]; intros i Hn; simpl.
  - unfold tier_lines. replace (i <? n - 1)%nat with false.
    + now rewrite List.app_nil_r.
    + symmetry. apply Nat.ltb_ge. simpl in Hn. lia.
  - unfold tier_lines at 1. replace (i <? n - 1)%nat with true.
    + rewrite (IH (S i)) by (simpl in Hn; lia). reflexivity.
    + symmetry. apply Nat.ltb_lt. simpl in Hn. lia.
Qed.

Lemma out_lines_snoc (init : list Tier) (last : Tier) :
  out_lines (init ++ [last])
  = (flat_map guarded_lines init ++ rendered_block last
       ++ repeat endif_line (List.length init))%list.
Proof.
  unfold out_lines. rewrite List.length_app. simpl List.length.
  rewrite (enumerate_lines_snoc _ last init 0) by lia.
  replace (List.length init + 1 - 1) with (List.length init) by lia.
  now rewrite <- List.app_assoc.
Qed.

(** *** Counting markers *)

Lemma prefix_empty (marker : string) : marker <> "" -> String.prefix marker "" = false.
Proof. destruct marker; [congruence | reflexivity]. Qed.

(** A marker does not reach over a character it does not hold. *)
Lemma prefix_app_sep (c : ascii) (b : string) :
  forall marker a,
    Py.mem_char c marker = false ->
    String.prefix marker (a ++ String c b) = String.prefix marker a.
Proof.
  induction marker as [|x marker IH]; intros a Hc; [now destruct a|].
  cbn [Py.mem_char] in Hc. apply orb_false_iff in Hc. destruct Hc as [Hx Hm].
  destruct a as [|y a]; cbn [String.append String.prefix].
  - destruct (ascii_dec x c) as [He|_]; [|reflexivity].
    subst x. now rewrite Ascii.eqb_refl in Hx.
  - destruct (ascii_dec x y); [now apply IH | reflexivity].
Qed.

Lemma count_marker_app_sep (marker : string) (c : ascii) (b : string) :
  marker <> "" -> Py.mem_char c marker = false ->
  forall a,
    count_marker marker (a ++ String c b) = count_marker marker a + count_marker marker b.
Proof.
  intros Hne Hc. induction a as [|y a IH].
  - cbn [String.append count_marker].
    pose proof (prefix_app_sep c b marker "" Hc) as Hp. cbn [String.append] in Hp.
    rewrite Hp, (prefix_empty _ Hne). reflexivity.
  - change (String y a ++ String c b) with (String y (a ++ String c b)).
    cbn [count_marker].
    change (String y (a ++ String c b)) with (String y a ++ String c b).
    rewrite (prefix_app_sep c b marker (String y a) Hc), IH. lia.
Qed.

(** The markers of a text joined by newlines are those of its lines. *)
Lemma count_marker_concat (marker : string) (lines : list string) :
  marker <> "" -> Py.mem_char "010"%char marker = false ->
  count_marker marker (String.concat Py.LF lines)
  = list_sum (map (count_marker marker) lines).
Proof.
  intros Hne Hc. induction lines as [|l [|l' ls] IH].
  - destruct marker; [congruence | reflexivity].
  - cbn [String.concat map list_sum fold_right]. lia.
  - change (String.concat Py.LF (l :: l' :: ls))
      with (l ++ String "010"%char (String.concat Py.LF (l' :: ls))).
    rewrite (count_marker_app_sep marker _ _ Hne Hc), IH. reflexivity.
Qed.

(** A marker does not stand in a text that lacks its first character. *)
Lemma count_marker_absent (x : ascii) (marker text : string) :
  Py.mem_char x text = false -> count_marker (String x marker) text = 0.
Proof.
  induction text as [|y text IH]; intros H; [reflexivity|].
  cbn [Py.mem_char] in H. apply orb_false_iff in H. destruct H as [Hy Ht].
  cbn [count_marker String.prefix]. rewrite (IH Ht).
  destruct (ascii_dec x y) as [He|_]; [|reflexivity].
  subst y. now rewrite Ascii.eqb_refl in Hy.
Qed.

Lemma digits_no_brace (s : string) :
  Re.all_chars Re.is_digit s = true -> Py.mem_char "{"%char s = false.
Proof.
  induction s as [|c s IH]; [reflexivity|].
  cbn [Re.all_chars Py.mem_char]. rewrite andb_true_iff. intros [Hc Hs].
  rewrite (IH Hs), orb_false_r.
  destruct (Ascii.eqb_spec "{"%char c) as [He|]; [|reflexivity].
  subst c. discriminate.
Qed.

Lemma decimal_no_brace (n : Z) : Py.mem_char "{"%char (PyFloat.decimal n) = false.
Proof.
  unfold PyFloat.decimal, NilZero.string_of_uint.
  assert (Hd : forall d, Re.all_chars Re.is_digit (NilEmpty.string_of_uint d) = true).
  { induction d; simpl; auto. }
  destruct (N.to_uint (Z.to_N n)) eqn:Hn; try reflexivity;
    rewrite <- Hn; apply digits_no_brace, Hd.
Qed.

(** A formatted threshold holds no brace. *)
Lemma format_2f_no_brace (x : float) : Py.mem_char "{"%char (PyFloat.format_2f x) = false.
Proof.
  assert (Hfix : forall sg h, Py.mem_char "{"%char (PyFloat.fixed2 sg h) = false).
  { intros sg h. unfold PyFloat.fixed2, PyFloat.two_digits.
    rewrite !ReFacts.mem_char_app, !decimal_no_brace.
    destruct sg; destruct (h mod 100 <? 10)%Z;
      rewrite ?ReFacts.mem_char_app, ?decimal_no_brace; reflexivity. }
  unfold PyFloat.format_2f. destruct (Prim2SF x) as [sg|sg| |sg m e]; auto.
  destruct sg; reflexivity.
Qed.

(** The opening line holds the opening marker once, at its head, and no
    closing marker, whatever the threshold. *)
Lemma count_markers_if_line (x : float) :
  count_marker open_marker (if_line (PyFloat.format_2f x)) = 1
  /\ count_marker close_marker (if_line (PyFloat.format_2f x)) = 0.
Proof.
  assert (Htail : Py.mem_char "{"%char (PyFloat.format_2f x ++ ")}}") = false).
  { now rewrite ReFacts.mem_char_app, format_2f_no_brace. }
  unfold if_line, dquote, open_marker, close_marker.
  cbn [String.append count_marker String.prefix].
  rewrite !(count_marker_absent _ _ _ Htail).
  split; vm_compute; reflexivity.
Qed.

Lemma count_markers_guarded (marker : string) (init : list Tier) (per_tier : nat) :
  (forall tier, In tier init ->
                list_sum (map (count_marker marker) (guarded_lines tier)) = per_tier) ->
  list_sum (map (count_marker marker) (flat_map guarded_lines init))
  = per_tier * List.length init.
Proof.
  intros H. induction init as [|t init IH]; [cbn; lia|].
  cbn [flat_map List.length]. rewrite map_app, list_sum_app, (H t (or_introl eq_refl)), IH.
  - lia.
  - intros tier Hin. apply H. now right.
Qed.

Lemma count_markers_closings (k : nat) :
  list_sum (map (count_marker open_marker) (repeat "{{{{/if}}}}" k)) = 0
  /\ list_sum (map (count_marker close_marker) (repeat "{{{{/if}}}}" k)) = k.
Proof.
  induction k as [|k [IH1 IH2]]; [split; reflexivity|]. split.
  - change (0 + list_sum (map (count_marker open_marker) (repeat "{{{{/if}}}}" k)) = 0).
    exact IH1.
  - change (1 + list_sum (map (count_marker close_marker) (repeat "{{{{/if}}}}" k)) = S k).
    now rewrite IH2.
Qed.

(** C7, as the code has it. For a list of [n >= 1] tiers none of whose names and
    titles holds a marker, written as the tiers before the last and the
    last one, the snippet is, joined by newlines, one guarded group (opening
    conditional, block, else marker) per tier before the last, then the last
    tier's block on its own, then [n - 1] closing lines; the opening marker
    stands at exactly [n - 1] places of the snippet, and so does the closing
    marker. *)
Theorem build_handlebars_markers (init : list Tier) (last : Tier) :
  let tiers := (init ++ [last])%list in
  let n := List.length tiers in
  marker_free tiers ->
  build_handlebars tiers
  = String.concat Py.LF
      (flat_map (fun tier => if_line (compare_value_str tier)
                               :: rendered_block tier ++ ["{{{{else}}}}"]) init
         ++ rendered_block last
         ++ repeat "{{{{/if}}}}" (n - 1))%list
  /\ count_marker "{{#if" (build_handlebars tiers) = n - 1
  /\ count_marker "{{/if}}" (build_handlebars tiers) = n - 1.
Proof.
  intros tiers n Hfree.
  change (fun tier => if_line (compare_value_str tier)
                        :: rendered_block tier ++ ["{{{{else}}}}"])%list
    with guarded_lines.
  assert (Hn : n = List.length init + 1).
  { unfold n, tiers. now rewrite List.length_app. }
  assert (Hshape : build_handlebars tiers
                   = String.concat Py.LF
                       (flat_map guarded_lines init ++ rendered_block last
                          ++ repeat "{{{{/if}}}}" (n - 1))%list).
  { unfold build_handlebars. fold n.
    replace (n =? 0)%nat with false by (symmetry; apply Nat.eqb_neq; lia).
    unfold tiers. rewrite out_lines_snoc.
    replace (n - 1) with (List.length init) by lia. reflexivity. }
  split; [exact Hshape|].
  assert (Hinit : forall tier, In tier init -> In tier tiers).
  { intros tier Hin. unfold tiers. apply in_or_app. now left. }
  destruct (Hfree last) as [Hlo [Hlt [Hlc Hltc]]].
  { unfold tiers. apply in_or_app. right. now left. }
  destruct (count_markers_closings (n - 1)) as [Hco Hcc].
  rewrite Hshape. split.
  - rewrite count_marker_concat by (reflexivity || discriminate).
    rewrite !map_app, !list_sum_app.
    rewrite (count_markers_guarded "{{#if" init 1).
    + change "{{#if" with open_marker. rewrite Hco.
      unfold rendered_block. cbn [map list_sum fold_right].
      rewrite Hlo, Hlt. cbn. lia.
    + intros tier Hin. destruct (Hfree tier (Hinit tier Hin)) as [Ho [Ht _]].
      unfold guarded_lines, rendered_block, compare_value_str.
      cbn [List.app map list_sum fold_right].
      change "{{#if" with open_marker.
      rewrite (proj1 (count_markers_if_line _)), Ho, Ht. reflexivity.
  - rewrite count_marker_concat by (reflexivity || discriminate).
    rewrite !map_app, !list_sum_app.
    rewrite (count_markers_guarded "{{/if}}" init 0).
    + change "{{/if}}" with close_marker. rewrite Hcc.
      unfold rendered_block. cbn [map list_sum fold_right].
      rewrite Hlc, Hltc. cbn. lia.
    + intros tier Hin. destruct (Hfree tier (Hinit tier Hin)) as [_ [_ [Hc Ht]]].
      unfold guarded_lines, rendered_block, compare_value_str.
      cbn [List.app map list_sum fold_right].
      change "{{/if}}" with close_marker.
      rewrite (proj2 (count_markers_if_line _)), Hc, Ht. reflexivity.
Qed.

(** Two tiers, the first under the one condition, the second bare. *)
Lemma build_handlebars_markers_witness :
  let alice := mkTier "Alice Adams" (Some "Chair") 10000%float None in
  let bob := mkTier "Bob Brown" None 500%float None in
  build_handlebars [alice; bob]
  = String.concat Py.LF
      [ "{{#if (compare Gift.amount.value "
          ++ String "034"%char (">" ++ String "034"%char " 9999.99)}}");
        "<p>"; "Alice Adams"; "<br>"; "Chair"; "</p>"; "{{{{else}}}}";
        "<p>"; "Bob Brown"; "<br>"; EmptyString; "</p>"; "{{{{/if}}}}" ]
  /\ count_marker "{{#if" (build_handlebars [alice; bob]) = 1
  /\ count_marker "{{/if}}" (build_handlebars [alice; bob]) = 1.
Proof.
  intros alice bob.
  assert (Hfree : marker_free ([alice] ++ [bob])).
  { intros tier [H|[H|[]]]; subst tier; repeat split; reflexivity. }
  destruct (build_handlebars_markers [alice] bob Hfree) as [Hshape [Hopen Hclose]].
  split; [|split; [exact Hopen | exact Hclose]].
  etransitivity; [exact Hshape|]. vm_compute. reflexivity.
Defined.

(** C7, refuted as stated: a name may hold a marker, and with two tiers the
    first of which is named like an opening conditional, the opening marker
    stands at two places of the snippet, not at [n - 1 = 1]. *)
Theorem marker_in_name_adds_an_opening :
  let trick := mkTier "{{#if vip}}" None 10000%float None in
  let bob := mkTier "Bob Brown" None 500%float None in
  count_marker "{{#if" (build_handlebars [trick; bob]) = 2
  /\ List.length [trick; bob] - 1 = 1
  /\ count_marker "{{/if}}" (build_handlebars [trick; bob]) = 1.
Proof. intros trick bob. vm_compute. repeat split. Qed.

Lemma threshold_of_10000 :
  PyFloat.format_2f (PrimFloat.sub 10000%float PyFloat.cent) = "9999.99".
Proof. vm_compute. reflexivity. Qed.

Lemma length_concat_cons (sep x : string) (y : string) (l : list string) :
  String.length (String.concat sep (x :: y :: l))
  = String.length x + String.length sep + String.length (String.concat sep (y :: l)).
Proof. cbn [String.concat]. rewrite !length_app. lia. Qed.

(** C2, on the failing input. For two tiers with thresholds 10000 and 500
    the builder writes one opening conditional with threshold [9999.99], the
    first block, an else marker, the second block and one closing marker,
    but the else marker and the closing marker come out with four braces on
    each side, not with the two braces of the documented example. *)
Theorem two_tier_markers_keep_four_braces
        (name1 name2 : string) (title1 title2 : option string)
        (max1 max2 : option float) :
  let t1 := mkTier name1 title1 10000%float max1 in
  let t2 := mkTier name2 title2 500%float max2 in
  build_handlebars [t1; t2]
  = String.concat Py.LF
      ([ if_line "9999.99" ] ++ rendered_block t1 ++ [ "{{{{else}}}}" ]
         ++ rendered_block t2 ++ [ "{{{{/if}}}}" ])
  /\ build_handlebars [t1; t2] <> documented_two_tiers t1 t2.
Proof.
  intros t1 t2.
  assert (Heq : build_handlebars [t1; t2]
                = String.concat Py.LF
                    ([ if_line "9999.99" ] ++ rendered_block t1 ++ [ "{{{{else}}}}" ]
                       ++ rendered_block t2 ++ [ "{{{{/if}}}}" ])).
  { unfold build_handlebars, out_lines, enumerate_lines, tier_lines, compare_value_str.
    cbn [List.length Nat.eqb Nat.ltb Nat.leb Nat.sub min_gift t1 t2].
    rewrite threshold_of_10000. reflexivity. }
  split; [exact Heq|].
  rewrite Heq. unfold documented_two_tiers, rendered_block.
  intros H. apply (f_equal String.length) in H.
  cbn [List.app] in H. rewrite !length_concat_cons in H.
  cbn [String.concat] in H. simpl String.length in H. lia.
Qed.

End SnippetFacts.

(* ================================================================== *)
(** ** The snippet through the replacement and back *)

Module RoundTrip.
Import Re Spec StrFacts ReFacts GithubHelpers ReplaceFacts StreamlitApp.

(** C6, as the code has it. For a document that holds the tag pair, with
    tags and snippet free of backslashes, and when the end tag does not
    occur (up to case) in the written span before the end tag the helper
    writes itself, the helper returns a text in which the region between
    the first start tag and the first end tag after it is the snippet with
    one newline before and one after. *)
Theorem snippet_round_trip (tiers : list Tier) (doc start_tag end_tag : string) :
  let snippet := build_handlebars tiers in
  let inner := Py.LF ++ snippet ++ Py.LF in
  has_span start_tag end_tag doc ->
  no_backslash (start_tag ++ Py.LF ++ snippet ++ Py.LF ++ end_tag) = true ->
  occurs_before (String.length inner) end_tag (inner ++ end_tag) = false ->
  exists new_text,
    safe_replace_between_tags doc start_tag end_tag snippet = Returns new_text
    /\ extract_between new_text start_tag end_tag = Some inner.
Proof.
  intros snippet inner Hspan Hnb Hocc.
  destruct (search false start_tag end_tag doc) as [[[before m] after]|] eqn:Hs.
  2: { exfalso. now apply (search_complete _ _ _ Hspan). }
  assert (Hne : Py.is_empty start_tag && Py.is_empty end_tag = false).
  { destruct end_tag; [|apply andb_false_r].
    unfold inner in Hocc. simpl in Hocc. discriminate. }
  pose proof (group0_nonempty _ _ _ _ _ _ _ Hs Hne) as Hg.
  destruct (safe_replace_round _ _ _ _ _ _ _ Hnb Hs Hg) as [out [_ Hdoc]].
  exists (before ++ (start_tag ++ Py.LF ++ snippet ++ Py.LF ++ end_tag) ++ out).
  split; [exact Hdoc|].
  unfold extract_between.
  pose proof (match_lazy_written_end end_tag out inner Hocc) as Hlazy.
  pose proof (search_Some _ _ _ _ _ _ _ Hs) as [Heq _].
  rewrite Heq in Hs.
  pose proof (search_in_rewritten start_tag end_tag _ _ _ _ Hlazy _ _ _ Hs) as Hfound.
  replace (before ++ (start_tag ++ Py.LF ++ snippet ++ Py.LF ++ end_tag) ++ out)
    with (before ++ start_tag ++ inner ++ end_tag ++ out).
  - rewrite Hfound. reflexivity.
  - unfold inner. now rewrite !app_assoc.
Qed.

Lemma snippet_round_trip_witness :
  let tiers := [ mkTier "Alice Adams" (Some "Chair") 10000%float None;
                 mkTier "Bob Brown" None 500%float None ] in
  let doc := "Thank you.<!-- Denver Sig Start -->old<!-- denver sig end -->Bye" in
  exists new_text,
    safe_replace_between_tags doc "<!-- denver sig start -->" "<!-- denver sig end -->"
                              (build_handlebars tiers) = Returns new_text
    /\ extract_between new_text "<!-- denver sig start -->" "<!-- denver sig end -->"
       = Some (Py.LF ++ build_handlebars tiers ++ Py.LF).
Proof.
  intros tiers doc.
  apply (snippet_round_trip tiers doc "<!-- denver sig start -->" "<!-- denver sig end -->").
  - exists "Thank you.", "<!-- Denver Sig Start -->", "old", "<!-- denver sig end -->", "Bye".
    repeat split; reflexivity.
  - vm_compute. reflexivity.
  - vm_compute. reflexivity.
Defined.

(** C6, refuted as stated: a tier whose name holds the end tag comes back
    cut short, since the region read back stops at the first end tag. *)
Lemma end_tag_in_name_breaks_round_trip :
  let tiers := [ mkTier "Pat <!-- denver sig end --> Poe" (Some "Chair") 500%float None ] in
  let doc := "<!-- denver sig start -->old<!-- denver sig end -->" in
  exists new_text,
    safe_replace_between_tags doc "<!-- denver sig start -->" "<!-- denver sig end -->"
                              (build_handlebars tiers) = Returns new_text
    /\ extract_between new_text "<!-- denver sig start -->" "<!-- denver sig end -->"
       = Some (Py.LF ++ "<p>" ++ Py.LF ++ "Pat ")
    /\ extract_between new_text "<!-- denver sig start -->" "<!-- denver sig end -->"
       <> Some (Py.LF ++ build_handlebars tiers ++ Py.LF).
Proof.
  intros tiers doc. eexists. split; [vm_compute; reflexivity|].
  split; [vm_compute; reflexivity|].
  intros H. vm_compute in H. discriminate.
Qed.

End RoundTrip.

(* ================================================================== *)
(** ** Facts about binary64 rounding and the two-decimal format *)

Module FloatFacts.
Import Spec PyFloat.
Local Open Scope Z_scope.

















End FloatFacts.

(* ================================================================== *)
(** ** streamlit_app.py: the threshold of an opening conditional *)

Module ThresholdFacts.
Import Spec StrFacts StreamlitApp PyFloat SnippetFacts FloatFacts.






End ThresholdFacts.

(* ================================================================== *)
(** ** Token resolution *)

Module StartupFacts.
Import Re GithubHelpers Startup MoreSpec.

Lemma truthy_Some (v : option string) :
  PyText.truthy v = true -> exists t, v = Some t /\ t <> "".
Proof.
  destruct v as [t|]; simpl; [|discriminate].
  destruct t; simpl; [discriminate|]. intros _. eexists. split; [reflexivity | discriminate].
Qed.

(** A resolved token is never the empty string. *)
Lemma resolve_token_nonempty (src : Sources) (t : string) :
  resolve_token src = inr (Some t) -> t <> "".
Proof.
  unfold resolve_token.
  destruct (secrets_get src) as [e|secret]; [discriminate|].
  destruct (PyText.truthy secret) eqn:Hs.
  { destruct (truthy_Some _ Hs) as [t' [Hv Hne]]. congruence. }
  destruct (PyText.truthy (environ_get src)) eqn:He.
  { destruct (truthy_Some _ He) as [t' [Hv Hne]]. congruence. }
  destruct (keyring_get_password src) as [e|tk]; [discriminate|].
  destruct (PyText.truthy tk) eqn:Ht; [|discriminate].
  destruct (truthy_Some _ Ht) as [t' [Hv Hne]]. congruence.
Qed.

(** X1. When the secrets cannot be read, [resolve_token] raises their
    exception, and neither the environment nor the keyring is tried.
    Otherwise it takes the first source that holds a non-empty token,
    secrets before the environment before the keyring; the token it returns
    is never empty; and it returns [None] exactly when no source holds one,
    a failing keyring counting as none. *)
Theorem resolve_token_first_usable (src : Sources) :
  (forall e, secrets_get src = inl e -> resolve_token src = inl e)
  /\ (forall e, resolve_token src = inl e -> secrets_get src = inl e)
  /\ (forall t, resolve_token src = inr (Some t) -> t <> "")
  /\ (resolve_token src = inr None <-> no_token src)
  /\ (forall secret, secrets_get src = inr secret ->
      (PyText.truthy secret = true -> resolve_token src = inr secret)
      /\ (PyText.truthy secret = false ->
          PyText.truthy (environ_get src) = true ->
          resolve_token src = inr (environ_get src))
      /\ (PyText.truthy secret = false ->
          PyText.truthy (environ_get src) = false ->
          (forall tk, keyring_get_password src = inr tk -> PyText.truthy tk = true ->
                      resolve_token src = inr tk)
          /\ (forall e, keyring_get_password src = inl e ->
                        resolve_token src = inr None))).
Proof.
  split; [intros e H; unfold resolve_token; now rewrite H|].
  split.
  { unfold resolve_token. intros e.
    destruct (secrets_get src) as [e'|secret]; [congruence|].
    destruct (PyText.truthy secret); [discriminate|].
    destruct (PyText.truthy (environ_get src)); [discriminate|].
    destruct (keyring_get_password src) as [e'|tk]; [discriminate|].
    destruct (PyText.truthy tk); discriminate. }
  split; [exact (resolve_token_nonempty src)|].
  split.
  - unfold resolve_token, no_token.
    destruct (secrets_get src) as [e|secret].
    { split; [discriminate|]. intros [[secret [H _]] _]. discriminate. }
    destruct (PyText.truthy secret) eqn:Hs.
    { destruct (truthy_Some _ Hs) as [t [Hv Hne]]. subst secret.
      split; [discriminate|]. intros [[secret [H Hf]] _].
      inversion H; subst secret. congruence. }
    destruct (PyText.truthy (environ_get src)) eqn:He.
    { destruct (truthy_Some _ He) as [t [Hv Hne]]. rewrite Hv.
      split; [discriminate|]. intros [_ [H _]]. discriminate. }
    destruct (keyring_get_password src) as [e|tk].
    { split; [|reflexivity]. intros _. split; [eauto|]. split; [reflexivity | exact I]. }
    destruct (PyText.truthy tk) eqn:Ht.
    { destruct (truthy_Some _ Ht) as [t [Hv Hne]]. subst tk.
      split; [discriminate|]. intros [_ [_ H]]. discriminate. }
    split; [|reflexivity]. intros _. split; [eauto|]. split; [reflexivity | reflexivity].
  - intros secret Hsec. unfold resolve_token. rewrite Hsec.
    split; [intros H; now rewrite H|].
    split; [intros H1 H2; now rewrite H1, H2|].
    intros H1 H2. rewrite H1, H2. split.
    + intros tk Hk Ht. now rewrite Hk, Ht.
    + intros e Hk. now rewrite Hk.
Qed.

(** The secrets cannot be read, the environment holds a token: the
    exception of the secrets is what comes out. *)
Lemma resolve_token_first_usable_witness :
  let missing := OtherError "StreamlitSecretNotFoundError" in
  let src := mkSources (inl missing) (Some "ghp_token") (inr None) in
  resolve_token src = inl missing
  /\ resolve_token (mkSources (inr (Some "")) None (inr (Some "ghp_ring")))
     = inr (Some "ghp_ring").
Proof.
  intros missing src. split.
  - exact (proj1 (resolve_token_first_usable src) missing eq_refl).
  - destruct (resolve_token_first_usable
                (mkSources (inr (Some "")) None (inr (Some "ghp_ring"))))
      as [_ [_ [_ [_ H]]]].
    destruct (H (Some "") eq_refl) as [_ [_ Hk]].
    exact (proj1 (Hk eq_refl eq_refl) (Some "ghp_ring") eq_refl eq_refl).
Defined.

(** X2. The script never reaches the [ValueError] of
    [get_github_client]: it ends with the exception of the secrets when
    they cannot be read, it stops when no token was resolved, and otherwise
    the client is built from the resolved, non-empty token. *)
Theorem script_start_never_raises (src : Sources) :
  (exists e, script_start src = Crashed e /\ secrets_get src = inl e
             /\ resolve_token src = inl e)
  \/ (script_start src = Stopped /\ resolve_token src = inr None)
  \/ (exists t, t <> "" /\ resolve_token src = inr (Some t)
                /\ script_start src = Client (Returns (mkGithub t))).
Proof.
  unfold script_start.
  pose proof (resolve_token_nonempty src) as Hne.
  destruct (resolve_token src) as [e|[t|]] eqn:Hr; simpl.
  - left. exists e. split; [reflexivity|]. split; [|reflexivity].
    unfold resolve_token in Hr.
    destruct (secrets_get src) as [e'|secret]; [congruence|].
    destruct (PyText.truthy secret); [discriminate|].
    destruct (PyText.truthy (environ_get src)); [discriminate|].
    destruct (keyring_get_password src) as [e'|tk]; [discriminate|].
    destruct (PyText.truthy tk); discriminate.
  - right. right. exists t. specialize (Hne t eq_refl).
    destruct t; [congruence|]. simpl.
    split; [discriminate|]. split; reflexivity.
  - right. left. auto.
Qed.

End StartupFacts.

(* ================================================================== *)
(** ** Choosing the live files, ordering the tiers *)

Module SelectionFacts.
Import Re GithubHelpers StreamlitApp Spec MoreSpec Selection StrFacts ReFacts ListingFacts.

(** The suffix test of [str.lower] and [str.endswith], for a suffix
    already in lower case. *)
Lemma lower_endswith (suffix s : string) :
  Py.lower suffix = suffix ->
  (Py.endswith (Py.lower s) suffix = true <-> ends_with_ci suffix s).
Proof.
  intros Hlow. rewrite endswith_iff. split.
  - intros [stem H]. apply lower_eq_app in H. destruct H as [a [b [Hs [_ Hb]]]].
    exists a, b. split; [assumption|]. apply ci_eqb_lower. now rewrite Hb.
  - intros [stem [t [Hs Hci]]]. apply ci_eqb_lower in Hci.
    exists (Py.lower stem). rewrite Hs, lower_app, <- Hci, Hlow. reflexivity.
Qed.

Lemma ends_with_ci_app (a b s : string) : ends_with_ci (a ++ b) s -> ends_with_ci b s.
Proof.
  intros [stem [t [Hs Hci]]]. apply ci_eqb_split in Hci.
  destruct Hci as [t1 [t2 [Ht [_ H2]]]]. exists (stem ++ t1), t2.
  rewrite Hs, Ht, app_assoc. auto.
Qed.

Lemma filter_filter {A : Type} (p q : A -> bool) (l : list A) :
  filter p (filter q l) = filter (fun x => q x && p x) l.
Proof.
  induction l as [|x l IH]; simpl; [reflexivity|].
  destruct (q x); simpl; [destruct (p x)|]; now rewrite IH.
Qed.

(** X3. When [updated_letters] is listed as a folder, the files the
    signature update rewrites are, in the folder's order, exactly its
    entries of type ["file"] whose name ends with ["_live.txt"] whatever the
    case of its letters; when the folder cannot be read there are none; and
    when [updated_letters] is a file, the [TypeError] of the listing ends
    the script, since nothing around line 253 catches it. *)
Theorem live_files_are_the_live_text_files (repo : Repository) :
  (forall e, get_contents repo "updated_letters" = inl e ->
             live_files repo = Returns [])
  /\ (forall contents,
        get_contents repo "updated_letters" = inr (Entries contents) ->
        exists files,
          live_files repo = Returns files
          /\ files = filter (fun c => String.eqb (cf_type c) "file" && is_live_file c)
                            contents
          /\ forall c, In c files <->
                       In c contents /\ cf_type c = "file"
                       /\ ends_with_ci "_live.txt" (cf_name c))
  /\ (forall c, get_contents repo "updated_letters" = inr (OneFile c) ->
                live_files repo
                = Raises (TypeError "'ContentFile' object is not iterable")).
Proof.
  unfold live_files, list_text_files_in_folder.
  split; [intros e H; now rewrite H|].
  split; [|intros c H; now rewrite H].
  intros contents H. rewrite H.
  - eexists. split; [reflexivity|].
    assert (Hlive : forall c, is_live_file c = true <-> ends_with_ci "_live.txt" (cf_name c)).
    { intros c. unfold is_live_file. now apply lower_endswith. }
    assert (Htxt : forall c, is_live_file c = true -> is_text_file c = is_text_file c
                             /\ Py.endswith (Py.lower (cf_name c)) ".txt" = true).
    { intros c Hc. split; [reflexivity|]. apply lower_endswith_txt.
      apply (ends_with_ci_app "_live" ".txt"). now apply Hlive. }
    split.
    + rewrite filter_filter. apply filter_ext. intros c. unfold is_text_file.
      destruct (String.eqb (cf_type c) "file"); simpl; [|reflexivity].
      destruct (is_live_file c) eqn:Hc; [|apply andb_false_r].
      destruct (Htxt c Hc) as [_ Ht]. now rewrite Ht.
    + intros c. rewrite !filter_In. unfold is_text_file.
      rewrite andb_true_iff, String.eqb_eq, Hlive, lower_endswith_txt. split.
      * tauto.
      * intros [Hin [Hty Hl]]. repeat split; try assumption.
        now apply (ends_with_ci_app "_live" ".txt").
Qed.

(** A folder with a live letter in upper case, a letter that is not live,
    and a folder named like a live letter. *)
Lemma live_files_are_the_live_text_files_witness :
  let upper := mkContentFile "file" "Thanks_LIVE.TXT" "updated_letters/Thanks_LIVE.TXT" in
  let draft := mkContentFile "file" "thanks.txt" "updated_letters/thanks.txt" in
  let folder := mkContentFile "dir" "old_live.txt" "updated_letters/old_live.txt" in
  let lower := mkContentFile "file" "note_live.txt" "updated_letters/note_live.txt" in
  let repo := mkRepository (fun _ => inr (Entries [upper; draft; folder; lower])) in
  live_files repo = Returns [upper; lower]
  /\ ends_with_ci "_live.txt" "Thanks_LIVE.TXT".
Proof.
  intros upper draft folder lower repo.
  destruct (live_files_are_the_live_text_files repo) as [_ [H _]].
  destruct (H [upper; draft; folder; lower] eq_refl) as [files [Hret [Hfiles Hin]]].
  split.
  - rewrite Hret, Hfiles. reflexivity.
  - apply (Hin upper). rewrite Hfiles. now left.
Defined.

End SelectionFacts.

(* ================================================================== *)
(** ** The order of the tiers *)

Module SortingFacts.
Import StreamlitApp MoreSpec Selection.

(** [<] on floats that are numbers is the order of their ranks. *)
Lemma SFltb_rank (x y : spec_float) :
  x <> S754_nan -> y <> S754_nan ->
  (SFltb x y = true <-> lex_lt (rank x) (rank y)).
Proof.
  intros Hx Hy. unfold SFltb, SFcompare, lex_lt, rank.
  destruct x as [sx|sx| |sx mx ex]; try congruence;
    destruct y as [sy|sy| |sy my ey]; try congruence;
    try destruct sx; try destruct sy; try (split; [discriminate | lia]);
    try (split; [lia | reflexivity]).
  - (* both negative *)
    change (Pos.compare_cont Eq mx my) with (Pos.compare mx my).
    destruct (Z.compare_spec ex ey) as [He|He|He];
      [destruct (Pos.compare_spec mx my) as [Hm|Hm|Hm]| |]; simpl;
      split; try discriminate; try reflexivity; try lia.
  - (* both positive *)
    change (Pos.compare_cont Eq mx my) with (Pos.compare mx my).
    destruct (Z.compare_spec ex ey) as [He|He|He];
      [destruct (Pos.compare_spec mx my) as [Hm|Hm|Hm]| |]; simpl;
      split; try discriminate; try reflexivity; try lia.
Qed.

Lemma not_below_rank (a b : Tier) :
  is_number a -> is_number b ->
  (not_below a b <-> ~ lex_lt (rank (Prim2SF (min_gift a))) (rank (Prim2SF (min_gift b)))).
Proof.
  intros Ha Hb. unfold not_below. rewrite ltb_spec.
  rewrite <- (SFltb_rank _ _ Ha Hb). destruct (SFltb _ _); split; congruence.
Qed.

Lemma not_below_trans (a b c : Tier) :
  is_number a -> is_number b -> is_number c ->
  not_below a b -> not_below b c -> not_below a c.
Proof.
  intros Ha Hb Hc. rewrite !not_below_rank by assumption.
  unfold lex_lt.
  destruct (rank (Prim2SF (min_gift a))) as [[a1 a2] a3].
  destruct (rank (Prim2SF (min_gift b))) as [[b1 b2] b3].
  destruct (rank (Prim2SF (min_gift c))) as [[c1 c2] c3].
  lia.
Qed.

(** Of two numbers, one is not below the other. *)
Lemma not_below_total (a b : Tier) :
  is_number a -> is_number b ->
  PrimFloat.ltb (min_gift a) (min_gift b) = true -> not_below b a.
Proof.
  intros Ha Hb Hlt. apply not_below_rank; [assumption | assumption |].
  rewrite ltb_spec in Hlt. apply (SFltb_rank _ _ Ha Hb) in Hlt.
  unfold lex_lt in *.
  destruct (rank (Prim2SF (min_gift a))) as [[a1 a2] a3].
  destruct (rank (Prim2SF (min_gift b))) as [[b1 b2] b3].
  lia.
Qed.

Lemma insert_desc_perm (tier : Tier) (l : list Tier) :
  Permutation (tier :: l) (insert_desc tier l).
Proof.
  induction l as [|t l IH]; simpl; [reflexivity|].
  destruct (PrimFloat.ltb (min_gift tier) (min_gift t)); [|reflexivity].
  rewrite perm_swap. now apply perm_skip.
Qed.

Lemma insert_desc_sorted (tier : Tier) (l : list Tier) :
  is_number tier -> Forall is_number l ->
  StronglySorted not_below l -> StronglySorted not_below (insert_desc tier l).
Proof.
  intros Ht Hl Hs. induction Hs as [|t l Hs IH Hall]; simpl.
  - constructor; constructor.
  - inversion Hl as [|? ? Hnt Hnl]; subst.
    destruct (PrimFloat.ltb (min_gift tier) (min_gift t)) eqn:Hlt.
    + constructor; [now apply IH|].
      apply (Permutation_Forall (insert_desc_perm tier l)).
      constructor; [now apply not_below_total | assumption].
    + constructor; [now constructor|].
      constructor; [exact Hlt|].
      rewrite Forall_forall in *. intros u Hu.
      apply (not_below_trans tier t u); auto.
Qed.

Lemma sorted_desc_perm (tiers : list Tier) : Permutation tiers (sorted_desc tiers).
Proof.
  induction tiers as [|t l IH]; simpl; [constructor|].
  rewrite <- insert_desc_perm. now apply perm_skip.
Qed.

(** X4. When every [min_gift] is a number, the tiers as sorted for the
    snippet are the same tiers, rearranged so that no tier is below any
    tier after it: the conditions are written from the highest threshold
    down, and the last tier, written without condition, has the lowest. *)
Theorem sorted_desc_is_descending (tiers : list Tier) :
  Forall is_number tiers ->
  Permutation tiers (sorted_desc tiers)
  /\ StronglySorted not_below (sorted_desc tiers)
  /\ (forall init last,
        sorted_desc tiers = (init ++ [last])%list ->
        forall t, In t tiers -> not_below t last).
Proof.
  intros Hnum.
  pose proof (sorted_desc_perm tiers) as Hperm.
  assert (Hsorted : StronglySorted not_below (sorted_desc tiers)).
  { induction tiers as [|t l IH]; simpl; [constructor|].
    inversion Hnum; subst. apply insert_desc_sorted; auto using sorted_desc_perm.
    eapply Permutation_Forall; [apply sorted_desc_perm | assumption]. }
  split; [exact Hperm|]. split; [exact Hsorted|].
  intros init last Heq t Hin.
  rewrite Heq in Hsorted, Hperm.
  apply (Permutation_in _ Hperm) in Hin. apply in_app_or in Hin.
  destruct Hin as [Hin | [Hin | []]].
  - clear Heq Hperm. induction init as [|u init IH]; [contradiction|].
    simpl in Hsorted. inversion Hsorted as [|? ? Hs Hall]; subst.
    destruct Hin as [Hin | Hin].
    + subst u. rewrite Forall_forall in Hall. apply Hall.
      apply in_or_app. right. now left.
    + now apply IH.
  - subst t. unfold not_below.
    assert (Hl : is_number last).
    { rewrite Forall_forall in Hnum. apply Hnum.
      apply (Permutation_in _ (Permutation_sym Hperm)).
      apply in_or_app. right. now left. }
    destruct (PrimFloat.ltb (min_gift last) (min_gift last)) eqn:Hlt; [|reflexivity].
    pose proof (not_below_total _ _ Hl Hl Hlt) as H. unfold not_below in H. congruence.
Qed.

Lemma sorted_desc_is_descending_witness :
  let alice := mkTier "Alice Adams" (Some "Chair") 10000%float None in
  let bob := mkTier "Bob Brown" None 500%float None in
  let carol := mkTier "Carol Cole" None 500%float None in
  sorted_desc [bob; alice; carol] = [alice; bob; carol]
  /\ Permutation [bob; alice; carol] (sorted_desc [bob; alice; carol])
  /\ StronglySorted not_below (sorted_desc [bob; alice; carol]).
Proof.
  intros alice bob carol. split; [vm_compute; reflexivity|].
  assert (Hnum : Forall is_number [bob; alice; carol]).
  { repeat constructor; unfold is_number; vm_compute; discriminate. }
  destruct (sorted_desc_is_descending [bob; alice; carol] Hnum) as [Hp [Hs _]].
  split; assumption.
Defined.

Lemma ties_with_rank (k : float) (t : Tier) :
  is_number t -> Prim2SF k <> S754_nan ->
  ties_with k t = true ->
  ~ lex_lt (rank (Prim2SF (min_gift t))) (rank (Prim2SF k))
  /\ ~ lex_lt (rank (Prim2SF k)) (rank (Prim2SF (min_gift t))).
Proof.
  intros Ht Hk. unfold ties_with. rewrite andb_true_iff, !negb_true_iff, !ltb_spec.
  intros [H1 H2]. split; intros Hlt.
  - apply (SFltb_rank _ _ Ht Hk) in Hlt. congruence.
  - apply (SFltb_rank _ _ Hk Ht) in Hlt. congruence.
Qed.

Lemma filter_ties_insert_desc (k : float) (tier : Tier) (l : list Tier) :
  is_number tier -> Forall is_number l -> Prim2SF k <> S754_nan ->
  filter (ties_with k) (insert_desc tier l) = filter (ties_with k) (tier :: l).
Proof.
  intros Ht Hl Hk. induction Hl as [|u l Hu Hl IH]; [reflexivity|].
  cbn [insert_desc].
  destruct (PrimFloat.ltb (min_gift tier) (min_gift u)) eqn:Hlt; [|reflexivity].
  cbn [filter] in IH |- *. rewrite IH.
  destruct (ties_with k u) eqn:Htu; [|reflexivity].
  destruct (ties_with k tier) eqn:Htt; [|reflexivity].
  exfalso.
  apply (ties_with_rank _ _ Hu Hk) in Htu. apply (ties_with_rank _ _ Ht Hk) in Htt.
  rewrite ltb_spec in Hlt. apply (SFltb_rank _ _ Ht Hu) in Hlt.
  unfold lex_lt in *.
  destruct (rank (Prim2SF (min_gift tier))) as [[a1 a2] a3].
  destruct (rank (Prim2SF (min_gift u))) as [[b1 b2] b3].
  destruct (rank (Prim2SF k)) as [[c1 c2] c3].
  lia.
Qed.

(** X17. The sort is stable: tiers with the same [min_gift] stay in the
    order in which they were given, so that of two such tiers the one given
    first is the one whose condition is written first. *)
Theorem sorted_desc_keeps_ties_in_order (tiers : list Tier) (k : float) :
  Forall is_number tiers -> Prim2SF k <> S754_nan ->
  filter (ties_with k) (sorted_desc tiers) = filter (ties_with k) tiers.
Proof.
  intros Hnum Hk. induction Hnum as [|t l Ht Hl IH]; [reflexivity|].
  cbn [sorted_desc]. rewrite filter_ties_insert_desc; try assumption.
  - cbn [filter]. now rewrite IH.
  - eapply Permutation_Forall; [apply sorted_desc_perm | assumption].
Qed.

Lemma sorted_desc_keeps_ties_in_order_witness :
  let alice := mkTier "Alice Adams" (Some "Chair") 10000%float None in
  let bob := mkTier "Bob Brown" None 500%float None in
  let carol := mkTier "Carol Cole" None 500%float None in
  filter (ties_with 500%float) (sorted_desc [bob; alice; carol]) = [bob; carol].
Proof.
  intros alice bob carol.
  rewrite (sorted_desc_keeps_ties_in_order [bob; alice; carol] 500%float).
  - vm_compute. reflexivity.
  - repeat constructor; unfold is_number; vm_compute; discriminate.
  - vm_compute. discriminate.
Defined.

End SortingFacts.

(* ================================================================== *)
(** ** More on the replacement between tags *)

Module HelperFacts.
Import Re Spec MoreSpec StrFacts ReFacts GithubHelpers ReplaceFacts.

(** Whether a span is there does not depend on the case of the tags or of
    the document. *)
Lemma has_span_ci (start_tag end_tag doc start_tag' end_tag' doc' : string) :
  ci_eqb start_tag start_tag' = true ->
  ci_eqb end_tag end_tag' = true ->
  ci_eqb doc doc' = true ->
  has_span start_tag end_tag doc -> has_span start_tag' end_tag' doc'.
Proof.
  intros Hs He Hd [pre [s [mid [e [post [Heq [Hcs Hce]]]]]]]. subst doc.
  apply ci_eqb_split in Hd. destruct Hd as [pre' [r1 [Hd1 [_ Hr1]]]].
  apply ci_eqb_split in Hr1. destruct Hr1 as [s' [r2 [Hd2 [Hss Hr2]]]].
  apply ci_eqb_split in Hr2. destruct Hr2 as [mid' [r3 [Hd3 [_ Hr3]]]].
  apply ci_eqb_split in Hr3. destruct Hr3 as [e' [post' [Hd4 [Hee _]]]].
  exists pre', s', mid', e', post'. subst. split; [reflexivity|]. split.
  - apply (ci_eqb_trans _ start_tag); [now rewrite ci_eqb_sym|].
    now apply (ci_eqb_trans _ s).
  - apply (ci_eqb_trans _ end_tag); [now rewrite ci_eqb_sym|].
    now apply (ci_eqb_trans _ e).
Qed.

(** X5. The helper is blind to case throughout: with tags and documents
    that differ only in the case of their letters, it raises its
    [ValueError] for the one exactly when it does for the other. *)
Theorem tags_not_found_whatever_the_case
        (doc start_tag end_tag new_inner doc' start_tag' end_tag' new_inner' : string) :
  ci_eqb start_tag start_tag' = true ->
  ci_eqb end_tag end_tag' = true ->
  ci_eqb doc doc' = true ->
  (safe_replace_between_tags doc start_tag end_tag new_inner
   = Raises (ValueError (tags_not_found start_tag end_tag))
   <-> safe_replace_between_tags doc' start_tag' end_tag' new_inner'
       = Raises (ValueError (tags_not_found start_tag' end_tag'))).
Proof.
  intros Hs He Hd.
  assert (Hiff : forall d s e n,
             safe_replace_between_tags d s e n = Raises (ValueError (tags_not_found s e))
             <-> ~ has_span s e d).
  { intros d s e n. rewrite <- search_None_iff. unfold safe_replace_between_tags.
    destruct (search false s e d); [|tauto].
    split; [|discriminate].
    destruct (parse_template _) as [[|]|items]; simpl; try discriminate.
    destruct (sub_loop _ _ _ _ _ _); discriminate. }
  rewrite !Hiff. split; intros H Hspan; apply H.
  - apply (has_span_ci start_tag' end_tag' doc'); try assumption;
      now rewrite ci_eqb_sym.
  - now apply (has_span_ci start_tag end_tag doc).
Qed.

Lemma tags_not_found_whatever_the_case_witness :
  safe_replace_between_tags "Hello <!-- START here -->x" "<!-- start here -->"
                            "<!-- end here -->" "a"
  = Raises (ValueError (tags_not_found "<!-- start here -->" "<!-- end here -->"))
  <-> safe_replace_between_tags "hello <!-- start HERE -->X" "<!-- Start Here -->"
                                "<!-- END HERE -->" "b"
      = Raises (ValueError (tags_not_found "<!-- Start Here -->" "<!-- END HERE -->")).
Proof.
  apply tags_not_found_whatever_the_case; reflexivity.
Defined.

(** Without backslashes the template is a literal, and each span found is
    rewritten to the tags around the new text. *)
Lemma plain_replacement_spec (doc start_tag end_tag new_inner : string) :
  no_backslash (start_tag ++ Py.LF ++ new_inner ++ Py.LF ++ end_tag) = true ->
  has_span start_tag end_tag doc ->
  exists new_text,
    safe_replace_between_tags doc start_tag end_tag new_inner = Returns new_text
    /\ has_span start_tag end_tag new_text.
Proof.
  intros Hnb Hspan.
  destruct (search false start_tag end_tag doc) as [[[before m] after]|] eqn:Hs.
  2: { exfalso. now apply (search_complete _ _ _ Hspan). }
  destruct (Py.is_empty start_tag && Py.is_empty end_tag) eqn:Hne.
  - (* both tags empty: every text holds the pair *)
    apply andb_true_iff in Hne. destruct Hne as [H1 H2].
    apply is_empty_true in H1, H2. subst start_tag end_tag.
    unfold safe_replace_between_tags. rewrite Hs, (parse_template_literal _ Hnb).
    destruct (sub_loop_total "" "" (map TLit (list_ascii_of_string
                                                ("" ++ Py.LF ++ new_inner ++ Py.LF ++ "")))
                             doc) as [out Hout].
    rewrite Hout. exists out. split; [reflexivity|].
    exists "", "", "", "", out. repeat split; reflexivity.
  - pose proof (group0_nonempty _ _ _ _ _ _ _ Hs Hne) as Hg.
    destruct (safe_replace_round _ _ _ _ _ _ _ Hnb Hs Hg) as [out [_ Hdoc]].
    eexists. split; [exact Hdoc|].
    exists before, start_tag, (Py.LF ++ new_inner ++ Py.LF), end_tag, out.
    split; [now rewrite !app_assoc|]. split; apply ci_eqb_refl.
Qed.

(** X6. With tags and new text free of backslashes the helper cannot
    fail on a document that holds the tag pair: it returns a text, and that
    text holds the tag pair again, so that a later run finds its markers. *)
Theorem plain_replacement_returns
        (doc start_tag end_tag new_inner : string) :
  no_backslash (start_tag ++ Py.LF ++ new_inner ++ Py.LF ++ end_tag) = true ->
  has_span start_tag end_tag doc ->
  exists new_text,
    safe_replace_between_tags doc start_tag end_tag new_inner = Returns new_text
    /\ has_span start_tag end_tag new_text.
Proof.
  exact (plain_replacement_spec doc start_tag end_tag new_inner).
Qed.

Lemma plain_replacement_returns_witness :
  exists new_text,
    safe_replace_between_tags "Dear <!-- Start Here -->old<!-- End Here -->, thanks"
                              "<!-- start here -->" "<!-- end here -->" "friend"
    = Returns new_text
    /\ has_span "<!-- start here -->" "<!-- end here -->" new_text.
Proof.
  apply plain_replacement_returns; [reflexivity|].
  exists "Dear ", "<!-- Start Here -->", "old", "<!-- End Here -->", ", thanks".
  repeat split; reflexivity.
Defined.

(** What the loop returns, it returns again when run on its own result:
    every span it wrote is found again where it was written. *)
Lemma sub_loop_fixed_point (start_tag end_tag new_inner : string) :
  let inner := Py.LF ++ new_inner ++ Py.LF in
  let items := map TLit (list_ascii_of_string (start_tag ++ inner ++ end_tag)) in
  occurs_before (String.length inner) end_tag (inner ++ end_tag) = false ->
  forall rounds adv text out,
    sub_loop rounds adv start_tag end_tag items text = Some out ->
    sub_loop (sub_rounds out) false start_tag end_tag items out = Some out.
Proof.
  intros inner items Hocc.
  assert (Hne : Py.is_empty start_tag && Py.is_empty end_tag = false).
  { destruct end_tag; [|apply andb_false_r].
    unfold inner in Hocc. simpl in Hocc. discriminate. }
  induction rounds as [|rounds IH]; intros adv text out H; [discriminate|].
  rewrite sub_loop_S, (search_adv_irrelevant adv) in H by assumption.
  destruct (search false start_tag end_tag text) as [[[sk m] rest]|] eqn:Hs.
  - destruct (sub_loop rounds _ start_tag end_tag items rest) as [out'|] eqn:Hrest;
      [|discriminate].
    inversion H; subst out. clear H.
    specialize (IH _ _ _ Hrest).
    assert (Hexp : forall m', expand items m' = start_tag ++ inner ++ end_tag).
    { intros m'. unfold items. apply expand_literal. }
    assert (HT : sk ++ expand items m ++ out'
                 = sk ++ start_tag ++ inner ++ end_tag ++ out').
    { now rewrite Hexp, !app_assoc. }
    rewrite HT.
    pose proof (search_Some _ _ _ _ _ _ _ Hs) as [Heq _]. rewrite Heq in Hs.
    pose proof (match_lazy_written_end end_tag out' inner Hocc) as Hlazy.
    pose proof (search_in_rewritten start_tag end_tag _ _ _ _ Hlazy _ _ _ Hs) as Hfound.
    destruct (sub_loop_step start_tag end_tag items _ _ _ _ Hfound) as [out'' [Ho Hdoc]].
    { unfold group0. simpl. intros Habs.
      destruct start_tag; [|discriminate]. unfold inner in Habs. discriminate. }
    rewrite IH in Ho. inversion Ho; subst out''.
    rewrite Hdoc, Hexp. now rewrite !app_assoc.
  - inversion H; subst out. now apply sub_loop_no_match.
Qed.

(** X7. Running the helper again on its own result, with the same tags
    and the same new text, changes nothing, as long as they hold no
    backslash and the end tag does not occur in the text written before the
    end tag itself. *)
Theorem safe_replace_idempotent (doc start_tag end_tag new_inner new_text : string) :
  let inner := Py.LF ++ new_inner ++ Py.LF in
  no_backslash (start_tag ++ Py.LF ++ new_inner ++ Py.LF ++ end_tag) = true ->
  occurs_before (String.length inner) end_tag (inner ++ end_tag) = false ->
  safe_replace_between_tags doc start_tag end_tag new_inner = Returns new_text ->
  safe_replace_between_tags new_text start_tag end_tag new_inner = Returns new_text.
Proof.
  intros inner Hnb Hocc H.
  assert (Hspan : has_span start_tag end_tag doc).
  { unfold safe_replace_between_tags in H.
    destruct (search false start_tag end_tag doc) as [[[sk m] rest]|] eqn:Hs;
      [|discriminate]. eapply search_sound; eassumption. }
  destruct (plain_replacement_spec _ _ _ _ Hnb Hspan) as [out [Hout Hspan']].
  rewrite Hout in H. inversion H; subst out. clear H.
  pose proof (parse_template_literal _ Hnb) as Hparse.
  assert (HR : start_tag ++ Py.LF ++ new_inner ++ Py.LF ++ end_tag
               = start_tag ++ inner ++ end_tag).
  { unfold inner. now rewrite !app_assoc. }
  unfold safe_replace_between_tags in Hout |- *.
  destruct (search false start_tag end_tag doc); [|discriminate].
  destruct (search false start_tag end_tag new_text) eqn:Hs'.
  2: { exfalso. now apply (search_complete _ _ _ Hspan'). }
  cbv zeta in Hout |- *. rewrite Hparse in Hout |- *. rewrite HR in Hout |- *.
  destruct (sub_loop (sub_rounds doc) false start_tag end_tag _ doc) as [o|] eqn:Hloop;
    [|discriminate].
  inversion Hout; subst o.
  unfold inner in *.
  now rewrite (sub_loop_fixed_point _ _ _ Hocc _ _ _ _ Hloop).
Qed.

Lemma safe_replace_idempotent_witness :
  let doc := "a<!-- start here -->x<!-- end here -->b<!-- START HERE -->y<!-- end here -->c" in
  let once := "a<!-- start here -->" ++ Py.LF ++ "N" ++ Py.LF ++ "<!-- end here -->b"
              ++ "<!-- start here -->" ++ Py.LF ++ "N" ++ Py.LF ++ "<!-- end here -->c" in
  safe_replace_between_tags doc "<!-- start here -->" "<!-- end here -->" "N" = Returns once
  /\ safe_replace_between_tags once "<!-- start here -->" "<!-- end here -->" "N"
     = Returns once.
Proof.
  intros doc once.
  assert (H : safe_replace_between_tags doc "<!-- start here -->" "<!-- end here -->" "N"
              = Returns once) by reflexivity.
  split; [exact H|].
  apply (safe_replace_idempotent doc "<!-- start here -->" "<!-- end here -->" "N" once);
    [reflexivity | reflexivity | exact H].
Defined.

End HelperFacts.

(* ================================================================== *)
(** ** Backslashes in the snippet *)

Module SnippetTextFacts.
Import Re Spec MoreSpec StrFacts ReFacts StreamlitApp PyFloat SnippetFacts.

Lemma digits_no_backslash (s : string) :
  all_chars is_digit s = true -> no_backslash s = true.
Proof.
  unfold no_backslash. induction s as [|c s IH]; [reflexivity|].
  cbn [all_chars Py.mem_char]. rewrite andb_true_iff. intros [Hc Hs].
  rewrite negb_orb, (IH Hs), andb_true_r.
  destruct (Ascii.eqb_spec backslash c) as [He|]; [|reflexivity].
  subst c. discriminate.
Qed.

Lemma string_of_uint_digits (d : Decimal.uint) :
  all_chars is_digit (NilEmpty.string_of_uint d) = true.
Proof. induction d; simpl; auto. Qed.

Lemma decimal_no_backslash (n : Z) : no_backslash (decimal n) = true.
Proof.
  unfold decimal, NilZero.string_of_uint.
  destruct (N.to_uint (Z.to_N n)) eqn:Hd; try reflexivity;
    rewrite <- Hd; apply digits_no_backslash, string_of_uint_digits.
Qed.

Lemma format_2f_no_backslash (x : float) : no_backslash (format_2f x) = true.
Proof.
  assert (Hfix : forall s h, no_backslash (fixed2 s h) = true).
  { intros s h. unfold fixed2, two_digits.
    rewrite !no_backslash_app, !decimal_no_backslash.
    destruct s; destruct (h mod 100 <? 10)%Z;
      rewrite ?no_backslash_app, ?decimal_no_backslash; reflexivity. }
  unfold format_2f. destruct (Prim2SF x) as [s|s| |s m e]; auto.
  destruct s; reflexivity.
Qed.

Lemma no_backslash_concat (lines : list string) :
  no_backslash (String.concat Py.LF lines) = forallb no_backslash lines.
Proof.
  induction lines as [|l [|l' ls] IH]; [reflexivity | |].
  - simpl. now rewrite andb_true_r.
  - cbn [String.concat forallb] in *. rewrite !no_backslash_app, IH.
    now destruct (no_backslash l).
Qed.

Lemma guarded_lines_no_backslash (t : Tier) :
  forallb no_backslash (guarded_lines t) = plain_tier t.
Proof.
  unfold guarded_lines, rendered_block, plain_tier, if_line, compare_value_str.
  cbn [forallb List.app]. rewrite !no_backslash_app, format_2f_no_backslash.
  simpl. now rewrite !andb_true_r.
Qed.

Lemma build_handlebars_no_backslash (tiers : list Tier) :
  no_backslash (build_handlebars tiers) = forallb plain_tier tiers.
Proof.
  destruct tiers as [|t0 rest]; [reflexivity|].
  destruct (exists_last (l := t0 :: rest)) as [init [last Heq]]; [discriminate|].
  rewrite Heq. clear Heq t0 rest.
  - unfold build_handlebars.
    rewrite List.length_app. simpl List.length.
    replace (List.length init + 1 =? 0)%nat with false
      by (symmetry; apply Nat.eqb_neq; lia).
    rewrite no_backslash_concat, out_lines_snoc, !forallb_app.
    assert (Hinit : forallb no_backslash (flat_map guarded_lines init)
                    = forallb plain_tier init).
    { induction init as [|t init IH]; [reflexivity|].
      cbn [flat_map forallb]. now rewrite forallb_app, guarded_lines_no_backslash, IH. }
    assert (Hrep : forall k, forallb no_backslash (repeat endif_line k) = true).
    { induction k; [reflexivity | simpl; assumption]. }
    rewrite Hinit, Hrep, andb_true_r.
    unfold rendered_block, plain_tier. simpl. now rewrite !andb_true_r.
Qed.

(** X8. The snippet holds a backslash exactly when the name or the title
    of some tier does: thresholds and markers never bring one in. *)
Theorem snippet_backslash_free_iff_tiers (tiers : list Tier) :
  no_backslash (build_handlebars tiers) = forallb plain_tier tiers.
Proof. exact (build_handlebars_no_backslash tiers). Qed.

End SnippetTextFacts.

(* ================================================================== *)
(** ** Reading and writing the remote store *)

Module RemoteFacts.
Import Re GithubHelpers StreamlitApp Spec MoreSpec Selection Remote BatchSpec.
Import StrFacts ReFacts ReplaceFacts HelperFacts SnippetTextFacts.

Lemma forallb_insert_desc (p : Tier -> bool) (t : Tier) (l : list Tier) :
  forallb p (insert_desc t l) = p t && forallb p l.
Proof.
  induction l as [|u l IH]; [reflexivity|]. cbn [insert_desc].
  destruct (PrimFloat.ltb (min_gift t) (min_gift u)); [|reflexivity].
  cbn [forallb]. rewrite IH. now destruct (p t), (p u).
Qed.

Lemma forallb_sorted_desc (p : Tier -> bool) (tiers : list Tier) :
  forallb p (sorted_desc tiers) = forallb p tiers.
Proof.
  induction tiers as [|t l IH]; [reflexivity|].
  cbn [sorted_desc forallb]. now rewrite forallb_insert_desc, IH.
Qed.

(** X15. When no name and no title of the tiers holds a backslash, the
    signature update cannot fail on a text that holds the tag pair of the
    location: the helper returns a text for the snippet of the sorted
    tiers, and that text holds the tag pair again. *)
Theorem signature_snippet_is_accepted (tiers : list Tier) (location doc : string) :
  let tags := signature_tags (Py.lower location) in
  forallb plain_tier tiers = true ->
  has_span (fst tags) (snd tags) doc ->
  exists new_text,
    safe_replace_between_tags doc (fst tags) (snd tags)
                              (build_handlebars (sorted_desc tiers))
    = Returns new_text
    /\ has_span (fst tags) (snd tags) new_text.
Proof.
  intros tags Hplain Hspan. apply plain_replacement_spec; [|exact Hspan].
  rewrite !no_backslash_app, build_handlebars_no_backslash, forallb_sorted_desc, Hplain.
  subst tags. unfold signature_tags.
  destruct (String.eqb (Py.lower location) "denver"); reflexivity.
Qed.

Lemma signature_snippet_is_accepted_witness :
  let tiers := [ mkTier "Bob Brown" None 500%float None;
                 mkTier "Alice Adams" (Some "Chair") 10000%float None ] in
  exists new_text,
    safe_replace_between_tags "Yours,<!-- Denver sig start -->old<!-- denver sig END -->"
                              "<!-- denver sig start -->" "<!-- denver sig end -->"
                              (build_handlebars (sorted_desc tiers))
    = Returns new_text
    /\ has_span "<!-- denver sig start -->" "<!-- denver sig end -->" new_text.
Proof.
  intros tiers.
  apply (signature_snippet_is_accepted
           tiers "Denver" "Yours,<!-- Denver sig start -->old<!-- denver sig END -->");
    [reflexivity|].
  exists "Yours,", "<!-- Denver sig start -->", "old", "<!-- denver sig END -->", "".
  repeat split; reflexivity.
Defined.

Section WithStore.

Context {W : Type} (store : Store W).

Lemma repo_get_contents_log (s : state W) (path : string) (ref : option string) :
  log (snd (repo_get_contents store s path ref)) = (log s ++ [GetContents path ref])%list
  /\ fst (repo_get_contents store s path ref) = fst (store_get store (world s) path ref).
Proof.
  unfold repo_get_contents. destruct (store_get store (world s) path ref); auto.
Qed.


(** The calls of one write, for the batches. *)
Lemma write_or_update_file_calls
      (s : state W) (path new_text commit_message branch : string) :
  exists writes,
    log (snd (write_or_update_file store s path new_text commit_message branch))
    = (log s ++ GetContents path (Some branch) :: writes)%list
    /\ Forall (fun c => (exists p sha, c = UpdateFile p commit_message new_text sha branch)
                        \/ c = CreateFile path commit_message new_text branch) writes.
Proof.
  unfold write_or_update_file, repo_get_contents, repo_update_file, repo_create_file.
  destruct (store_get store (world s) path (Some branch)) as [[e|contents] w1];
    cbn [world log].
  - destruct (store_create store w1 path commit_message new_text branch) as [[e2|[]] w2];
      cbn [snd log]; eexists [_]; (split; [now rewrite <- List.app_assoc|]);
      repeat constructor; now right.
  - destruct (store_update store w1 (fc_path contents) commit_message new_text
                           (fc_sha contents) branch) as [[e|[]] w2]; cbn [world log].
    + destruct (store_create store w2 path commit_message new_text branch) as [[e2|[]] w3];
        cbn [snd log]; eexists [_; _]; (split; [now rewrite <- !List.app_assoc|]);
        (constructor; [left; eauto | constructor; [now right | constructor]]).
    + cbn [snd log]. eexists [_]. split; [now rewrite <- !List.app_assoc|].
      constructor; [left; eauto | constructor].
Qed.

Lemma batch_call_incl (b : batch) (files files' : list ContentFile) (c : call) :
  incl files files' -> batch_call b files c -> batch_call b files' c.
Proof. intros Hincl [f [Hin H]]. exists f. split; [now apply Hincl | exact H]. Qed.

(** One file of a batch: a row comes back whatever happens, and the calls
    made are calls of the batch for that file. *)
Lemma batch_file_spec (b : batch) (s : state W) (f : ContentFile) :
  exists r s' calls,
    batch_file store b s f = (Returns r, s')
    /\ row_name r = cf_name f
    /\ (row_status r = "ok" \/ row_status r = "error")
    /\ log s' = (log s ++ calls)%list
    /\ Forall (batch_call b [f]) calls.
Proof.
  unfold batch_file, read_file_contents, repo_get_contents.
  assert (Hread : batch_call b [f] (GetContents (cf_path f) None)).
  { exists f. split; [now left | left; auto]. }
  destruct (store_get store (world s) (cf_path f) None) as [[e|contents] w1].
  { do 3 eexists. split; [reflexivity|]. split; [reflexivity|].
    split; [right; reflexivity|]. split; [reflexivity|]. now constructor. }
  destruct (fc_decoded contents) as [e|original_text].
  { do 3 eexists. split; [reflexivity|]. split; [reflexivity|].
    split; [right; reflexivity|]. split; [reflexivity|]. now constructor. }
  destruct (safe_replace_between_tags original_text (b_start b) (b_end b) (b_inner b))
    as [new_text|e|] eqn:Hrep.
  - destruct (write_or_update_file_calls
                (mkState w1 (log s ++ [GetContents (cf_path f) None]))
                (b_target b f) new_text (b_message b f) (b_branch b))
      as [writes [Hlog Hw]].
    cbn [log] in Hlog. rewrite <- List.app_assoc in Hlog.
    assert (Hcalls : Forall (batch_call b [f])
                            ([GetContents (cf_path f) None]
                               ++ GetContents (b_target b f) (Some (b_branch b)) :: writes)).
    { constructor; [exact Hread|]. constructor.
      - exists f. split; [now left | right; auto].
      - rewrite Forall_forall in *. intros c Hc. exists f. split; [now left|].
        destruct (Hw c Hc) as [[p [sha Hu]] | Hcr]; subst c; eauto 6. }
    destruct (write_or_update_file store _ (b_target b f) new_text (b_message b f)
                                   (b_branch b)) as [[e|res] s2];
      cbn [snd] in Hlog; do 3 eexists;
      (split; [reflexivity|]); (split; [reflexivity|]);
      (split; [first [left; reflexivity | right; reflexivity]|]);
      (split; [exact Hlog | exact Hcalls]).
  - do 3 eexists. split; [reflexivity|]. split; [reflexivity|].
    split; [right; reflexivity|]. split; [reflexivity|]. now constructor.
  - exfalso. now apply (safe_replace_finishes _ _ _ _ Hrep).
Qed.

(** The whole batch: one row per file, in the order of the files, and
    only calls of the batch. *)
Lemma batch_loop_spec (b : batch) (files : list ContentFile) :
  forall s,
  exists rows s' calls,
    batch_loop store b s files = (Returns rows, s')
    /\ map row_name rows = map cf_name files
    /\ Forall (fun r => row_status r = "ok" \/ row_status r = "error") rows
    /\ log s' = (log s ++ calls)%list
    /\ Forall (batch_call b files) calls.
Proof.
  induction files as [|f rest IH]; intros s.
  - exists [], s, []. simpl. rewrite List.app_nil_r. repeat split; constructor.
  - destruct (batch_file_spec b s f) as [r [s1 [calls1 [Hf [Hn [Hst [Hl1 Hc1]]]]]]].
    destruct (IH s1) as [rows [s2 [calls2 [Hloop [Hnames [Hsts [Hl2 Hc2]]]]]]].
    exists (r :: rows), s2, (calls1 ++ calls2)%list.
    cbn [batch_loop]. rewrite Hf, Hloop. split; [reflexivity|].
    split; [simpl; now rewrite Hn, Hnames|].
    split; [now constructor|].
    split; [now rewrite Hl2, Hl1, List.app_assoc|].
    apply Forall_app. split.
    + eapply Forall_impl; [|exact Hc1]. intros c. apply batch_call_incl.
      intros x [Hx|[]]. now left.
    + eapply Forall_impl; [|exact Hc2]. intros c. apply batch_call_incl.
      intros x Hx. now right.
Qed.

(** The two loops of the script are batches. *)
Lemma wording_loop_batch (paste_block branch : string) (files : list ContentFile) :
  forall s,
    wording_loop store s files paste_block branch
    = batch_loop store (wording_batch paste_block branch) s files.
Proof.
  induction files as [|f rest IH]; intros s; [reflexivity|].
  cbn [wording_loop batch_loop].
  replace (wording_file store s f paste_block branch)
    with (batch_file store (wording_batch paste_block branch) s f) by reflexivity.
  destruct (batch_file store _ s f) as [[r|e|] s1]; try reflexivity.
  now rewrite IH.
Qed.

Lemma signature_loop_batch (location snippet branch : string) (files : list ContentFile) :
  forall s,
    signature_loop store s files location snippet branch
    = batch_loop store (signature_batch location snippet branch) s files.
Proof.
  induction files as [|f rest IH]; intros s; [reflexivity|].
  cbn [signature_loop batch_loop].
  replace (signature_file store s f location snippet branch)
    with (batch_file store (signature_batch location snippet branch) s f).
  - destruct (batch_file store _ s f) as [[r|e|] s1]; try reflexivity.
    now rewrite IH.
  - unfold signature_file, batch_file, signature_batch. cbn [b_start b_end b_inner
      b_target b_message b_branch].
    destruct (signature_tags (Py.lower location)) as [start_tag end_tag].
    reflexivity.
Qed.

(** A blank text is one made of white space only. *)
Lemma strip_empty_iff (text : string) :
  Py.is_empty (PyText.strip text) = true <-> all_chars PyText.isspace text = true.
Proof.
  unfold PyText.strip. induction text as [|c text IH]; [simpl; tauto|].
  cbn [PyText.lstrip all_chars]. destruct (PyText.isspace c) eqn:Hc.
  - rewrite IH. simpl. tauto.
  - cbn [PyText.rstrip]. rewrite Hc, andb_false_r. simpl. split; discriminate.
Qed.

(** X10. The wording update asks nothing of the store unless the button
    was pressed, the pasted block holds more than white space and the
    confirmation is checked; in that case it runs the batch to its end. *)
Theorem wording_update_is_guarded
        (s : state W) (button : bool) (paste_block : string) (confirm_writing : bool)
        (base_files : list ContentFile) (branch : string) :
  let ready := button && negb (all_chars PyText.isspace paste_block) && confirm_writing in
  exists shown s',
    wording_update store s button paste_block confirm_writing base_files branch
    = (Returns shown, s')
    /\ (ready = false -> s' = s /\ forall rows, shown <> Finished rows)
    /\ (ready = true ->
        exists rows,
          shown = Finished rows
          /\ wording_loop store s base_files paste_block branch = (Returns rows, s')).
Proof.
  intros ready. unfold wording_update. subst ready.
  destruct button; simpl.
  2: { do 2 eexists. split; [reflexivity|]. split; [split; [reflexivity|]|]; discriminate. }
  destruct (Py.is_empty (PyText.strip paste_block)) eqn:Hblank.
  - apply strip_empty_iff in Hblank. rewrite Hblank. simpl.
    do 2 eexists. split; [reflexivity|]. split; [split; [reflexivity|]|]; discriminate.
  - assert (Hns : all_chars PyText.isspace paste_block = false).
    { destruct (all_chars PyText.isspace paste_block) eqn:H; [|reflexivity].
      apply strip_empty_iff in H. congruence. }
    rewrite Hns. simpl. destruct confirm_writing; simpl.
    + rewrite wording_loop_batch.
      destruct (batch_loop_spec (wording_batch paste_block branch) base_files s)
        as [rows [s' [calls [Hloop _]]]].
      rewrite Hloop. do 2 eexists. split; [reflexivity|].
      split; [discriminate|]. intros _. eauto.
    + do 2 eexists. split; [reflexivity|].
      split; [split; [reflexivity|]|]; discriminate.
Qed.

(** X11. The wording batch never stops half way: whatever the store
    answers and whatever the helper raises, it returns one row per base
    file, in the order of the files, each marked ["ok"] or ["error"]. *)
Theorem wording_loop_reports_every_file
        (s : state W) (base_files : list ContentFile) (paste_block branch : string) :
  exists rows s',
    wording_loop store s base_files paste_block branch = (Returns rows, s')
    /\ map row_name rows = map cf_name base_files
    /\ Forall (fun r => row_status r = "ok" \/ row_status r = "error") rows.
Proof.
  rewrite wording_loop_batch.
  destruct (batch_loop_spec (wording_batch paste_block branch) base_files s)
    as [rows [s' [calls [Hloop [Hn [Hst _]]]]]].
  eauto.
Qed.

(** X12. What the wording batch asks of the store: it reads each base
    file and looks at its target on the branch; it writes nothing but texts
    the helper returned for the pasted block, on the chosen branch; and
    whatever it creates, it creates as [updated_letters/<name>] for a base
    file of that name. *)
Theorem wording_loop_writes_only_helper_output
        (s : state W) (base_files : list ContentFile) (paste_block branch : string) :
  exists calls,
    log (snd (wording_loop store s base_files paste_block branch)) = (log s ++ calls)%list
    /\ Forall (batch_call (wording_batch paste_block branch) base_files) calls
    /\ (forall c content, In c calls -> call_content c = Some content ->
          call_branch c = Some branch
          /\ exists original,
               safe_replace_between_tags original "<!-- start here -->" "<!-- end here -->"
                                         paste_block = Returns content)
    /\ (forall path message content br,
          In (CreateFile path message content br) calls ->
          exists f, In f base_files /\ path = "updated_letters/" ++ cf_name f).
Proof.
  rewrite wording_loop_batch.
  destruct (batch_loop_spec (wording_batch paste_block branch) base_files s)
    as [rows [s' [calls [Hloop [_ [_ [Hlog Hcalls]]]]]]].
  rewrite Hloop. exists calls. split; [exact Hlog|]. split; [exact Hcalls|].
  rewrite Forall_forall in Hcalls. split.
  - intros c content Hin Hc. destruct (Hcalls c Hin) as [f [_ H]].
    destruct c; simpl in Hc; [discriminate| |]; inversion Hc; subst; simpl in *.
    + destruct H as [_ [Hb Ho]]. subst. auto.
    + destruct H as [_ [_ [Hb Ho]]]. subst. auto.
  - intros path message content br Hin.
    destruct (Hcalls _ Hin) as [f [Hf [Hp _]]]. exists f. auto.
Qed.

(** X13. The signature update asks nothing of the store unless the
    button was pressed, a tier is configured and the confirmation is
    checked.  Then it lists [updated_letters] first and returns one row per
    [_live] text file of the listing; it writes nothing but texts the
    helper returned for the tag pair of the location and the snippet built
    from the tiers in descending order; and whatever it creates, it creates
    at the path of the file itself. *)
Theorem signature_update_is_guarded_and_complete
        (s : state W) (button : bool) (tiers : list Tier) (confirm_sig : bool)
        (location branch : string) (live : list ContentFile) :
  live_files (fst (repo_list_folder store s "updated_letters")) = Returns live ->
  let ready := button && negb (Nat.eqb (List.length tiers) 0) && confirm_sig in
  let snippet := build_handlebars (sorted_desc tiers) in
  exists shown s' calls,
    signature_update store s button tiers confirm_sig location branch
    = (Returns shown, s')
    /\ log s' = (log s ++ calls)%list
    /\ (ready = false -> s' = s /\ forall rows, shown <> Finished rows)
    /\ (ready = true ->
        exists rows more,
          shown = Finished rows /\ map row_name rows = map cf_name live
          /\ calls = GetContents "updated_letters" None :: more)
    /\ (forall c content, In c calls -> call_content c = Some content ->
          call_branch c = Some branch
          /\ exists original,
               safe_replace_between_tags
                 original (fst (signature_tags (Py.lower location)))
                 (snd (signature_tags (Py.lower location))) snippet = Returns content)
    /\ (forall path message content br,
          In (CreateFile path message content br) calls ->
          exists f, In f live /\ path = cf_path f).
Proof.
  intros Hlive ready snippet. unfold signature_update. subst ready.
  destruct button; cbn [andb].
  2: { exists NotPressed, s, []. rewrite List.app_nil_r.
       split; [reflexivity|]. split; [reflexivity|].
       split; [split; [reflexivity | discriminate]|]. split; [discriminate|].
       split; intros; contradiction. }
  destruct tiers as [|t tiers'].
  { eexists _, s, []. rewrite List.app_nil_r.
    split; [reflexivity|]. split; [reflexivity|].
    split; [split; [reflexivity | discriminate]|]. split; [discriminate|].
    split; intros; contradiction. }
  cbn [List.length Nat.eqb negb andb].
  destruct confirm_sig; cbn [negb].
  2: { eexists _, s, []. rewrite List.app_nil_r.
       split; [reflexivity|]. split; [reflexivity|].
       split; [split; [reflexivity | discriminate]|]. split; [discriminate|].
       split; intros; contradiction. }
  cbv zeta. fold snippet.
  assert (Hlog0 : log (snd (repo_list_folder store s "updated_letters"))
                  = (log s ++ [GetContents "updated_letters" None])%list).
  { unfold repo_list_folder. now destruct (store_list store (world s) "updated_letters"). }
  destruct (repo_list_folder store s "updated_letters") as [repo s0].
  cbn [fst snd] in Hlive, Hlog0.
  rewrite Hlive, signature_loop_batch.
  destruct (batch_loop_spec (signature_batch location snippet branch) live s0)
    as [rows [s' [calls [Hloop [Hn [_ [Hlog Hcalls]]]]]]].
  rewrite Hloop. exists (Finished rows), s', (GetContents "updated_letters" None :: calls).
  split; [reflexivity|].
  split; [rewrite Hlog, Hlog0, <- List.app_assoc; reflexivity|].
  split; [discriminate|].
  split; [intros _; exists rows, calls; auto|].
  rewrite Forall_forall in Hcalls. split.
  - intros c content [Hc0|Hin] Hc; [subst c; discriminate|].
    destruct (Hcalls c Hin) as [f [_ H]].
    destruct c; simpl in Hc; [discriminate| |]; inversion Hc; subst; simpl in *.
    + destruct H as [_ [Hb Ho]]. subst. auto.
    + destruct H as [_ [_ [Hb Ho]]]. subst. auto.
  - intros path message content br [Hc0|Hin]; [discriminate|].
    destruct (Hcalls _ Hin) as [f [Hf [Hp _]]]. exists f. auto.
Qed.

(** X14. A file whose text lacks the markers is read and nothing more:
    its row carries the helper's [ValueError], and nothing is written, in
    the wording batch as in the signature batch. *)
Theorem file_without_markers_is_only_read
        (s : state W) (f : ContentFile) (contents : FileContent) (w1 : W) (text : string)
        (paste_block location snippet branch : string) :
  store_get store (world s) (cf_path f) None = (inr contents, w1) ->
  fc_decoded contents = inr text ->
  (~ has_span "<!-- start here -->" "<!-- end here -->" text ->
   wording_file store s f paste_block branch
   = (Returns (cf_name f, "error",
               Failed (ValueError (tags_not_found "<!-- start here -->"
                                                  "<!-- end here -->"))),
      mkState w1 (log s ++ [GetContents (cf_path f) None])))
  /\ (~ has_span (fst (signature_tags (Py.lower location)))
                 (snd (signature_tags (Py.lower location))) text ->
      signature_file store s f location snippet branch
      = (Returns (cf_name f, "error",
                  Failed (ValueError
                            (tags_not_found (fst (signature_tags (Py.lower location)))
                                            (snd (signature_tags (Py.lower location)))))),
         mkState w1 (log s ++ [GetContents (cf_path f) None]))).
Proof.
  intros Hget Hdec. split; intros Hno; apply search_None_iff in Hno.
  - unfold wording_file, read_file_contents, repo_get_contents.
    rewrite Hget, Hdec. unfold safe_replace_between_tags. now rewrite Hno.
  - unfold signature_file, read_file_contents, repo_get_contents.
    rewrite Hget, Hdec.
    destruct (signature_tags (Py.lower location)) as [start_tag end_tag].
    cbn [fst snd] in *. unfold safe_replace_between_tags. now rewrite Hno.
Qed.


End WithStore.


Lemma signature_update_is_guarded_and_complete_witness :
  let world := [ ("updated_letters/a_LIVE.txt",
                  "Hi<!-- denver sig start -->old<!-- denver sig end -->");
                 ("updated_letters/b.txt", "Hello");
                 ("base_templates/c_live.txt", "Hello") ] in
  let tiers := [ mkTier "Bob Brown" None 500%float None;
                 mkTier "Alice Adams" (Some "Chair") 10000%float None ] in
  exists shown s' calls,
    signature_update toy_store (mkState world []) true tiers true "Denver" "main"
    = (Returns shown, s')
    /\ log s' = calls
    /\ exists rows more,
         shown = Finished rows /\ map row_name rows = ["a_LIVE.txt"]
         /\ calls = GetContents "updated_letters" None :: more.
Proof.
  intros world tiers.
  destruct (signature_update_is_guarded_and_complete
              toy_store (mkState world []) true tiers true "Denver" "main"
              [ mkContentFile "file" "a_LIVE.txt" "updated_letters/a_LIVE.txt" ]
              eq_refl)
    as [shown [s' [calls [Hrun [Hlog [_ [Hready _]]]]]]].
  exists shown, s', calls. split; [exact Hrun|]. split; [exact Hlog|].
  exact (Hready eq_refl).
Defined.

Lemma file_without_markers_is_only_read_witness :
  let f := mkContentFile "file" "plain.txt" "base_templates/plain.txt" in
  let world := [ ("base_templates/plain.txt", "Dear donor, thank you.") ] in
  wording_file toy_store (mkState world []) f "new words" "main"
  = (Returns ("plain.txt", "error",
              Failed (ValueError (tags_not_found "<!-- start here -->"
                                                 "<!-- end here -->"))),
     mkState world [GetContents "base_templates/plain.txt" None]).
Proof.
  intros f world.
  refine (proj1 (file_without_markers_is_only_read
                   toy_store (mkState world []) f
                   (mkFileContent "base_templates/plain.txt" "sha"
                                  (inr "Dear donor, thank you."))
                   world "Dear donor, thank you." "new words" "Denver" "" "main"
                   eq_refl eq_refl) _).
  apply search_None_iff. reflexivity.
Defined.

End RemoteFacts.
